(** * CRUD backend for schedules, sections, events and venues (src/app.py)

    A shallow embedding of the FastAPI / SQLModel application in
    [src/app.py].  The relational store is a record of four tables, each a
    list of rows in rowid order; a handler is a function from the store to
    a response and the store after the request.

    What belongs to the libraries the application delegates to is modelled
    as far as the handlers depend on it:
    - pydantic: required / defaulted fields, nullable annotations, the
      [extra] policy of [model_config], [exclude_unset] dumps; the text
      grammars of the leaf types are a fragment (absolute http(s) URLs
      without normalisation, [HH:MM:SS] times, [YYYY-MM-DD] dates);
    - SQLAlchemy: bind / result processing of [TypeDecorator] columns,
      NOT NULL and primary-key constraints, the unit of work's handling of
      one-to-many relationships on delete, rollback when a request raises
      before its commit;
    - SQLite: integer primary keys as rowids, 64-bit integers,
      [LIMIT] / [OFFSET]. *)

From stdpp Require Import gmap strings list fin_maps sorting.
From Stdlib Require Import ZArith Ascii String.

Set Warnings "-register-all".
Local Open Scope string_scope.
Local Open Scope Z_scope.

(** ** Values *)

(** Decoded JSON, as the request body arrives. *)
Inductive json :=
  | JNull
  | JBool (b : bool)
  | JInt (n : Z)
  | JStr (s : string)
  | JArr (l : list json)
  | JObj (o : list (string * json)).

(** [pydantic.HttpUrl]: an object wrapping the text of the URL. *)
Record HttpUrl := mkHttpUrl { url_text : string }.

(** Python values held by model attributes and by table cells. *)
Inductive value :=
  | VNone
  | VInt (n : Z)
  | VStr (s : string)
  | VUrl (u : HttpUrl)
  | VTime (h m s : nat)
  | VDate (y m d : nat)
  | VDict (o : list (string * json)).

(** A JSON object body, a dump of a model, the attributes of an object and
    the cells of a row are all dictionaries keyed by field name. *)
Abbreviation body := (gmap string json).
Abbreviation attrs := (gmap string value).

(** ** Leaf validation (pydantic) *)

Fixpoint starts_with (p s : string) : bool :=
  match p, s with
  | EmptyString, _ => true
  | String a p', String b s' => if Ascii.eqb a b then starts_with p' s' else false
  | String _ _, EmptyString => false
  end.

Definition str_len (s : string) : Z := Z.of_nat (String.length s).

(** [HttpUrl(url=s)] on a string: scheme http or https, a non-empty rest,
    at most 2083 characters. *)
Definition valid_http_url (s : string) : bool :=
  ((starts_with "http://" s && (7 <? str_len s))
   || (starts_with "https://" s && (8 <? str_len s)))
  && (str_len s <=? 2083).

Fixpoint contains_at (s : string) : bool :=
  match s with
  | EmptyString => false
  | String a s' => if Ascii.eqb a "@"%char then true else contains_at s'
  end.

(** [EmailStr]: something before and after an [@]. *)
Definition valid_email (s : string) : bool :=
  contains_at s && negb (starts_with "@" s) && (3 <=? str_len s).

Definition digit (a : ascii) : option nat :=
  let n := nat_of_ascii a in
  if ((48 <=? n) && (n <=? 57))%nat then Some (n - 48)%nat else None.

Definition digits2 (a b : ascii) : option nat :=
  x ← digit a; y ← digit b; Some (10 * x + y)%nat.

Definition digits4 (a b c d : ascii) : option nat :=
  x ← digits2 a b; y ← digits2 c d; Some (100 * x + y)%nat.

(** [datetime.time] from [HH:MM:SS]. *)
Definition parse_time (s : string) : option value :=
  match s with
  | String a (String b (String ":" (String c (String d
      (String ":" (String e (String f EmptyString))))))) =>
      h ← digits2 a b; m ← digits2 c d; sec ← digits2 e f;
      if ((h <? 24) && (m <? 60) && (sec <? 60))%nat
      then Some (VTime h m sec) else None
  | _ => None
  end.

Definition leap_year (y : nat) : bool :=
  ((y mod 4 =? 0) && (negb (y mod 100 =? 0) || (y mod 400 =? 0)))%nat.

Definition days_in_month (y m : nat) : nat :=
  match m with
  | 2 => if leap_year y then 29 else 28
  | 4 | 6 | 9 | 11 => 30
  | _ => 31
  end%nat.

(** [datetime.date] from [YYYY-MM-DD]. *)
Definition parse_date (s : string) : option value :=
  match s with
  | String a (String b (String c (String d (String "-" (String e (String f
      (String "-" (String g (String h EmptyString))))))))) =>
      y ← digits4 a b c d; m ← digits2 e f; dd ← digits2 g h;
      if ((1 <=? y) && (1 <=? m) && (m <=? 12) && (1 <=? dd)
          && (dd <=? days_in_month y m))%nat
      then Some (VDate y m dd) else None
  | _ => None
  end.

(** The annotation of a field, without its [Optional] / [| None] part. *)
Inductive ftype := TStr | TInt | THttpUrl | TEmailStr | TTime | TDate | TDict.

(** Validation of a leaf value.  This is a fragment of what pydantic
    accepts: an integer is a JSON integer, a URL is an absolute http or
    https URL taken as it is written, an e-mail is a text with an [@]
    inside, a time is written [HH:MM:SS] and a date [YYYY-MM-DD]. *)
Definition validate_leaf (t : ftype) (j : json) : option value :=
  match t, j with
  | TStr, JStr s => Some (VStr s)
  | TInt, JInt n => Some (VInt n)
  | THttpUrl, JStr s =>
      if valid_http_url s then Some (VUrl (mkHttpUrl s)) else None
  | TEmailStr, JStr s => if valid_email s then Some (VStr s) else None
  | TTime, JStr s => parse_time s
  | TDate, JStr s => parse_date s
  | TDict, JObj o => Some (VDict o)
  | _, _ => None
  end.

(** ** Pydantic models *)

(** One field of a model: its name, its type, whether the annotation
    admits [None], and its default ([None] here: the field is required). *)
Record field := mkField {
  fname : string;
  fty : ftype;
  noneable : bool;
  fdefault : option value
}.

(** [model_config = ConfigDict(extra='forbid')], or pydantic's default. *)
Inductive extra_policy := forbid | ignore.

Record model := mkModel {
  model_fields : list field;
  extra : extra_policy
}.

Definition field_names (m : model) : list string := fname <$> model_fields m.

Definition validate_field (f : field) (j : json) : option value :=
  match j with
  | JNull => if noneable f then Some VNone else None
  | _ => validate_leaf (fty f) j
  end.

(** Some key of the body names no field of the model. *)
Definition has_extra (m : model) (b : body) : bool :=
  negb (bool_decide (dom b ⊆ (list_to_set (field_names m) : gset string))).

(** The fields in turn: a key that is present is validated, a key that is
    absent needs a default.  The result holds the fields that were set. *)
Fixpoint validate_fields (fs : list field) (b : body) : option attrs :=
  match fs with
  | [] => Some ∅
  | f :: fs' =>
      match b !! fname f with
      | Some j =>
          v ← validate_field f j;
          rest ← validate_fields fs' b;
          Some (<[fname f := v]> rest)
      | None =>
          match fdefault f with
          | Some _ => validate_fields fs' b
          | None => None
          end
      end
  end.

(** Validation of a request body against a model; [None] is the 422 the
    framework answers before the handler is called. *)
Definition model_validate (m : model) (b : body) : option attrs :=
  match extra m with
  | forbid => if has_extra m b then None else validate_fields (model_fields m) b
  | ignore => validate_fields (model_fields m) b
  end.

(** [getattr] on a validated model: the value set, else the default. *)
Definition field_value (f : field) (set : attrs) : value :=
  match set !! fname f with
  | Some v => v
  | None => default VNone (fdefault f)
  end.

(** [model_dump(exclude_unset=True)]: the fields that were set. *)
Definition model_dump_exclude_unset (set : attrs) : attrs := set.

(** ** The models of src/app.py *)

Definition required (n : string) (t : ftype) : field := mkField n t false None.
Definition optional (n : string) (t : ftype) : field := mkField n t true (Some VNone).

(** [class ScheduleBase(SQLModel)], lines 23-33. *)
Definition ScheduleBase_fields : list field :=
  [ required "url" THttpUrl;
    required "title" TStr;
    required "venue" TStr;
    optional "venue_url" THttpUrl;
    required "schedule_datetime" TStr;
    mkField "locations" TDict false (Some (VDict []));
    mkField "registration" TDict true (Some (VDict []));
    optional "description" TStr ].

Definition ScheduleCreate : model := mkModel ScheduleBase_fields forbid.

Definition SchedulePublic : model :=
  mkModel (ScheduleBase_fields ++ [required "id" TInt]) forbid.

(** [class ScheduleUpdate(ScheduleBase)], lines 50-59: every field
    re-declared [... | None = None]; the configuration is inherited. *)
Definition ScheduleUpdate : model :=
  mkModel
    [ optional "url" THttpUrl; optional "title" TStr; optional "venue" TStr;
      optional "venue_url" THttpUrl; optional "schedule_datetime" TStr;
      optional "locations" TDict; optional "registration" TDict;
      optional "description" TStr ]
    forbid.

(** [class SectionBase(SQLModel)], lines 62-67.  [status: Optional[str]]
    has no default: it may be [None] but it has to be given. *)
Definition SectionBase_fields : list field :=
  [ required "title" TStr;
    required "sequence" TStr;
    mkField "status" TStr true None ].

Definition SectionCreate : model := mkModel SectionBase_fields forbid.

Definition SectionPublic : model :=
  mkModel (SectionBase_fields ++ [required "id" TInt]) forbid.

(** [class SectionUpdate(SQLModel)], lines 87-91: its own class, with
    pydantic's default configuration, and with an [id] field. *)
Definition SectionUpdate : model :=
  mkModel
    [ optional "id" TInt; optional "title" TStr; optional "sequence" TStr;
      optional "status" TStr ]
    ignore.

(** [class EventBase(SQLModel)], lines 95-104. *)
Definition EventBase_fields : list field :=
  [ required "start_time" TTime;
    required "end_time" TTime;
    required "event_date" TDate;
    required "location" TStr;
    optional "section_id" TInt ].

Definition EventCreate : model := mkModel EventBase_fields forbid.

Definition EventPublic : model :=
  mkModel (EventBase_fields ++ [required "id" TInt]) forbid.

(** [class EventUpdate(SQLModel)], lines 121-125. *)
Definition EventUpdate : model :=
  mkModel
    [ optional "start_time" TTime; optional "end_time" TTime;
      optional "event_date" TDate; optional "location" TStr ]
    ignore.

(** [class VenueBase(SQLModel)], lines 140-148: no [model_config]. *)
Definition VenueBase_fields : list field :=
  [ required "name" TStr;
    optional "Tel" TStr;
    optional "Address" TStr;
    optional "Mail" TEmailStr;
    optional "url" THttpUrl;
    optional "Fax" TStr;
    optional "Contact" TStr ].

Definition VenueCreate : model := mkModel VenueBase_fields ignore.

Definition VenuePublic : model :=
  mkModel (VenueBase_fields ++ [required "id" TInt]) ignore.

(** [class VenueUpdate(VenueBase)], lines 165-172. *)
Definition VenueUpdate : model :=
  mkModel
    [ optional "name" TStr; optional "Tel" TStr; optional "Address" TStr;
      optional "Mail" TEmailStr; optional "url" THttpUrl; optional "Fax" TStr;
      optional "Contact" TStr ]
    ignore.

(** ** Tables *)

Inductive entity := ESchedule | ESection | EEvent | EVenue.

(** The type of a column: the one SQLModel derives from the annotation, or
    the [HttpUrlType] decorator of lines 8-20. *)
Inductive sa_type := SaDefault | SaHttpUrlType.

Record column := mkColumn {
  cname : string;
  ctype : sa_type;
  nullable : bool
}.

(** [Relationship(back_populates=...)]: the attribute, the other table and
    the foreign-key column that carries it. *)
Inductive relationship :=
  | OneToMany (attr : string) (child : entity) (fk : string)
  | ManyToOne (attr : string) (parent : entity) (fk : string).

Record table_model := mkTable {
  columns : list column;
  relationships : list relationship
}.

(** [class Schedule(ScheduleBase, table=True)], lines 36-39. *)
Definition Schedule : table_model :=
  mkTable
    [ mkColumn "url" SaHttpUrlType false;
      mkColumn "title" SaDefault false;
      mkColumn "venue" SaDefault false;
      mkColumn "venue_url" SaHttpUrlType true;
      mkColumn "schedule_datetime" SaDefault false;
      mkColumn "locations" SaDefault true;
      mkColumn "registration" SaDefault true;
      mkColumn "description" SaDefault true;
      mkColumn "id" SaDefault false ]
    [ OneToMany "sections" ESection "schedule_id" ].

(** [class Section(SectionBase, table=True)], lines 70-76. *)
Definition Section_ : table_model :=
  mkTable
    [ mkColumn "title" SaDefault false;
      mkColumn "sequence" SaDefault false;
      mkColumn "status" SaDefault true;
      mkColumn "id" SaDefault false;
      mkColumn "schedule_id" SaDefault true ]
    [ OneToMany "events" EEvent "section_id";
      ManyToOne "schedule" ESchedule "schedule_id" ].

(** [class Event(EventBase, table=True)], lines 107-110. *)
Definition Event : table_model :=
  mkTable
    [ mkColumn "start_time" SaDefault false;
      mkColumn "end_time" SaDefault false;
      mkColumn "event_date" SaDefault false;
      mkColumn "location" SaDefault false;
      mkColumn "section_id" SaDefault true;
      mkColumn "id" SaDefault false ]
    [ ManyToOne "section" ESection "section_id" ].

(** [class Venue(VenueBase, table=True)], lines 161-162. *)
Definition Venue : table_model :=
  mkTable
    [ mkColumn "name" SaDefault false;
      mkColumn "Tel" SaDefault true;
      mkColumn "Address" SaDefault true;
      mkColumn "Mail" SaDefault true;
      mkColumn "url" SaHttpUrlType true;
      mkColumn "Fax" SaDefault true;
      mkColumn "Contact" SaDefault true;
      mkColumn "id" SaDefault false ]
    [].

Definition table_of (e : entity) : table_model :=
  match e with
  | ESchedule => Schedule
  | ESection => Section_
  | EEvent => Event
  | EVenue => Venue
  end.

(** The database: one list of rows per table, in rowid order, and the
    rowids the random generator of SQLite will propose, in turn, when a
    rowid has to be picked at random (see [new_rowid]). *)
Record database := mkDatabase {
  schedule_rows : list attrs;
  section_rows : list attrs;
  event_rows : list attrs;
  venue_rows : list attrs;
  random_rowids : list Z
}.

Definition rows (e : entity) (db : database) : list attrs :=
  match e with
  | ESchedule => schedule_rows db
  | ESection => section_rows db
  | EEvent => event_rows db
  | EVenue => venue_rows db
  end.

Definition set_rows (e : entity) (t : list attrs) (db : database) : database :=
  match e with
  | ESchedule =>
      mkDatabase t (section_rows db) (event_rows db) (venue_rows db)
                 (random_rowids db)
  | ESection =>
      mkDatabase (schedule_rows db) t (event_rows db) (venue_rows db)
                 (random_rowids db)
  | EEvent =>
      mkDatabase (schedule_rows db) (section_rows db) t (venue_rows db)
                 (random_rowids db)
  | EVenue =>
      mkDatabase (schedule_rows db) (section_rows db) (event_rows db) t
                 (random_rowids db)
  end.

(** [create_db_and_tables], lines 184-186: everything dropped and created
    again at startup.  The tables are empty; the random generator plays
    no part until a table has used the largest rowid. *)
Definition create_db_and_tables : database := mkDatabase [] [] [] [] [].

(** ** [HttpUrlType], lines 8-20 *)

(** [process_bind_param]: [str(value)], on the [HttpUrl] or the [None] that
    a URL attribute holds. *)
Definition process_bind_param (value : option HttpUrl) : string :=
  match value with
  | Some u => url_text u
  | None => "None"
  end.

(** [process_result_value]: [HttpUrl(url=value)] on what the cell holds;
    [None] here stands for the [ValidationError] the constructor raises. *)
Definition process_result_value (value : option string) : option HttpUrl :=
  match value with
  | Some s => if valid_http_url s then Some (mkHttpUrl s) else None
  | None => None
  end.

(** ** Rows and the session *)

(** A cell on its way to the database. *)
Definition bind_cell (c : column) (v : value) : value :=
  match ctype c, v with
  | SaHttpUrlType, VUrl u => VStr (process_bind_param (Some u))
  | SaHttpUrlType, VNone => VStr (process_bind_param None)
  | _, _ => v
  end.

(** A cell on its way back. *)
Definition result_cell (c : column) (v : value) : option value :=
  match ctype c with
  | SaDefault => Some v
  | SaHttpUrlType =>
      VUrl <$> process_result_value
                 (match v with VStr s => Some s | _ => None end)
  end.

Definition cell (r : attrs) (k : string) : value := default VNone (r !! k).

Definition column_named (k : string) (c : column) : bool := String.eqb (cname c) k.
Definition field_named (k : string) (f : field) : bool := String.eqb (fname f) k.

Definition bind_row (tm : table_model) (obj : attrs) : attrs :=
  list_to_map ((λ c, (cname c, bind_cell c (cell obj (cname c)))) <$> columns tm).

(** A row read into an object of the table class; [None] when a result
    processor raises. *)
Fixpoint load_cells (cs : list column) (r : attrs) : option attrs :=
  match cs with
  | [] => Some ∅
  | c :: cs' =>
      v ← result_cell c (cell r (cname c));
      o ← load_cells cs' r;
      Some (<[cname c := v]> o)
  end.

Definition load_row (tm : table_model) (r : attrs) : option attrs :=
  load_cells (columns tm) r.

Definition row_id (r : attrs) : option Z :=
  match r !! "id" with
  | Some (VInt n) => Some n
  | _ => None
  end.

Definition has_id (id : Z) (r : attrs) : bool :=
  match row_id r with
  | Some n => n =? id
  | None => false
  end.

(** The row the SELECT of [session.get(T, id)] finds, for an identifier
    that could be bound (the handlers test [int64] first). *)
Definition find_row (id : Z) (t : list attrs) : option attrs :=
  List.find (has_id id) t.

Definition remove_row (id : Z) (t : list attrs) : list attrs :=
  List.filter (λ r, negb (has_id id r)) t.

(** A row put at its place in rowid order. *)
Fixpoint insert_row (r : attrs) (t : list attrs) : list attrs :=
  match t with
  | [] => [r]
  | r' :: t' =>
      match row_id r, row_id r' with
      | Some n, Some n' => if n <? n' then r :: t else r' :: insert_row r t'
      | _, _ => r' :: insert_row r t'
      end
  end.

(** The integers a cell or a bound parameter can hold: signed, 64 bits.
    Binding any other Python int raises [OverflowError]. *)
Definition int64 (n : Z) : bool := (- 2 ^ 63 <=? n) && (n <=? 2 ^ 63 - 1).

Definition bindable (v : value) : bool :=
  match v with
  | VInt n => int64 n
  | _ => true
  end.

(** The largest rowid. *)
Definition max_rowid : Z := 2 ^ 63 - 1.

(** 1 in an empty table, else one more than the largest rowid in use. *)
Definition next_rowid (t : list attrs) : Z :=
  match omap row_id t with
  | [] => 1
  | i :: ids => foldr Z.max i ids + 1
  end.

Definition unused_rowid (t : list attrs) (c : Z) : bool :=
  (1 <=? c) && (c <=? max_rowid) && negb (existsb (has_id c) t).

(** The rowid SQLite gives a row inserted without one: [next_rowid] as
    long as that is a rowid; once the largest rowid is in use, the first
    of the rowids proposed at random that is positive and unused, and
    none (the INSERT fails, the database is full) when there is no such
    proposal. *)
Definition new_rowid (random : list Z) (t : list attrs) : option Z :=
  if next_rowid t <=? max_rowid then Some (next_rowid t)
  else List.find (unused_rowid t) random.

(** NOT NULL on every column that is not nullable. *)
Definition not_null_ok (tm : table_model) (r : attrs) : bool :=
  forallb (λ c, nullable c || match cell r (cname c) with VNone => false | _ => true end)
          (columns tm).

(** [T.model_validate(obj)]: an object of the table class from a validated
    create model; attributes the create model lacks take their default,
    [None]. *)
Definition table_validate (tm : table_model) (cm : model) (set : attrs) : attrs :=
  list_to_map
    ((λ c, (cname c,
            match List.find (field_named (cname c)) (model_fields cm) with
            | Some f => field_value f set
            | None => VNone
            end)) <$> columns tm).

(** [SELECT ... LIMIT limit OFFSET offset] in SQLite: a negative offset is
    no offset, a negative limit is no limit. *)
Definition sql_offset (offset : Z) (t : list attrs) : list attrs :=
  drop (Z.to_nat offset) t.

Definition sql_limit (limit : Z) (t : list attrs) : list attrs :=
  if limit <? 0 then t else take (Z.to_nat limit) t.

(** ** Responses *)

Inductive response (A : Type) :=
  | Ok (content : A)
  | HTTPException (status_code : Z) (detail : string)
  | RequestValidationError
  | InternalServerError.

Arguments Ok {A} content.
Arguments HTTPException {A} status_code detail.
Arguments RequestValidationError {A}.
Arguments InternalServerError {A}.

(** The object returned by a handler, read attribute by attribute into the
    [response_model]; a required attribute holding [None] fails. *)
Definition response_field (f : field) (obj : attrs) : option value :=
  match obj !! fname f with
  | Some VNone => if noneable f then Some VNone else None
  | Some v => Some v
  | None => fdefault f
  end.

Fixpoint response_fields (fs : list field) (obj : attrs) : option attrs :=
  match fs with
  | [] => Some ∅
  | f :: fs' =>
      v ← response_field f obj;
      rest ← response_fields fs' obj;
      Some (<[fname f := v]> rest)
  end.

Definition response_validate (m : model) (obj : attrs) : option attrs :=
  response_fields (model_fields m) obj.

Definition serialize (m : model) (obj : attrs) : response attrs :=
  match response_validate m obj with
  | Some r => Ok r
  | None => InternalServerError
  end.

(** What a nested field of a response holds. *)
Inductive nested_value :=
  | NestedNone
  | NestedOne (r : attrs)
  | NestedList (l : list attrs).

(** A field added by a [...PublicWith...] class: its name, the model of
    its items, its default. *)
Record nested_field := mkNested {
  nf_name : string;
  nf_model : model;
  nf_default : nested_value
}.

(** [class EventPublicWithSection(EventPublic)], lines 128-129. *)
Definition EventPublicWithSection : nested_field :=
  mkNested "section" SectionPublic NestedNone.

(** [class SectionPublicWithEventes(SectionPublic)], lines 132-133. *)
Definition SectionPublicWithEventes : nested_field :=
  mkNested "eventes" EventPublic (NestedList []).

(** [class SchedulePublicWithSections(SchedulePublic)], lines 136-137. *)
Definition SchedulePublicWithSections : nested_field :=
  mkNested "sections" SectionPublic (NestedList []).

Definition rel_attr (r : relationship) : string :=
  match r with
  | OneToMany a _ _ => a
  | ManyToOne a _ _ => a
  end.

Definition fk_is (fk : string) (id : Z) (r : attrs) : bool :=
  match r !! fk with
  | Some (VInt n) => n =? id
  | _ => false
  end.

(** The relationship attribute of a loaded object, loaded lazily from the
    other table and read into the nested model. *)
Definition load_relationship (rel : relationship) (m : model)
    (obj : attrs) (db : database) : option nested_value :=
  match rel with
  | OneToMany _ child fk =>
      match obj !! "id" with
      | Some (VInt id) =>
          objs ← mapM (load_row (table_of child))
                      (List.filter (fk_is fk id) (rows child db));
          NestedList <$> mapM (response_validate m) objs
      | _ => Some (NestedList [])
      end
  | ManyToOne _ parent fk =>
      match obj !! fk with
      | Some (VInt p) =>
          if int64 p then
            match find_row p (rows parent db) with
            | Some r =>
                o ← load_row (table_of parent) r;
                NestedOne <$> response_validate m o
            | None => Some NestedNone
            end
          else None
      | _ => Some NestedNone
      end
  end.

(** The nested field of a response: the attribute of that name when the
    table class has one, else the default of the field. *)
Definition nested_attr (tm : table_model) (nf : nested_field)
    (obj : attrs) (db : database) : option nested_value :=
  match List.find (λ rel, String.eqb (rel_attr rel) (nf_name nf)) (relationships tm) with
  | Some rel => load_relationship rel (nf_model nf) obj db
  | None => Some (nf_default nf)
  end.

(** ** The handlers *)

(** What the five handlers of one entity share: the table class, the
    models of the request bodies and of the responses, the nested field of
    the get-by-id response, the text of the 404. *)
Record resource := mkResource {
  res_entity : entity;
  res_create : model;
  res_update : model;
  res_public : model;
  res_nested : option nested_field;
  res_detail : string
}.

Definition Events : resource :=
  mkResource EEvent EventCreate EventUpdate EventPublic
             (Some EventPublicWithSection) "Event not found".

Definition Sections : resource :=
  mkResource ESection SectionCreate SectionUpdate SectionPublic
             (Some SectionPublicWithEventes) "Section not found".

Definition Schedules : resource :=
  mkResource ESchedule ScheduleCreate ScheduleUpdate SchedulePublic
             (Some SchedulePublicWithSections) "Schedule not found".

Definition Venues : resource :=
  mkResource EVenue VenueCreate VenueUpdate VenuePublic
             None "Venue not found".

(** The content of a get-by-id response. *)
Definition content : Type := attrs * option (string * nested_value).

(** [{"ok": True}] *)
Definition ok_true : body := {[ "ok" := JBool true ]}.

Section handlers.
Variable R : resource.

Let e := res_entity R.
Let tm := table_of (res_entity R).

(** The parameters of an INSERT: every cell has to be bindable. *)
Definition cells_bindable (cells : attrs) : bool :=
  forallb (λ c, bindable (cell cells (cname c))) (columns tm).

(** [create_*]: [model_validate], [add], [commit], [refresh], return.
    The commit raises, and stores nothing, when a cell cannot be bound,
    when no rowid is found or when a NOT NULL column gets no value. *)
Definition create_one (obj : attrs) (session : database)
    : response attrs * database :=
  let t := rows e session in
  let db_obj := table_validate tm (res_create R) obj in
  let cells := bind_row tm db_obj in
  if cells_bindable cells then
    match new_rowid (random_rowids session) t with
    | Some id =>
        let row := <["id" := VInt id]> cells in
        if not_null_ok tm row then
          let session' := set_rows e (insert_row row t) session in
          match load_row tm row with
          | Some o => (serialize (res_public R) o, session')
          | None => (InternalServerError, session')
          end
        else (InternalServerError, session)
    | None => (InternalServerError, session)
    end
  else (InternalServerError, session).

(** [read_*s]: [select(T).offset(offset).limit(limit)], [all], return.
    Offset and limit are bound parameters of the SELECT. *)
Definition read_all (offset limit : Z) (session : database)
    : response (list attrs) * database :=
  if int64 offset && int64 limit then
    let page := sql_limit limit (sql_offset offset (rows e session)) in
    match mapM (load_row tm) page with
    | Some objs =>
        match mapM (response_validate (res_public R)) objs with
        | Some l => (Ok l, session)
        | None => (InternalServerError, session)
        end
    | None => (InternalServerError, session)
    end
  else (InternalServerError, session).

(** [read_*]: [session.get], 404 when there is none, return.  The
    identifier is a bound parameter of the SELECT of [session.get]: one
    that cannot be bound raises before the handler tests the result. *)
Definition read_one (id : Z) (session : database)
    : response content * database :=
  if int64 id then
    match find_row id (rows e session) with
    | None => (HTTPException 404 (res_detail R), session)
    | Some r =>
        match load_row tm r with
        | None => (InternalServerError, session)
        | Some obj =>
            match response_validate (res_public R) obj, res_nested R with
            | None, _ => (InternalServerError, session)
            | Some rec, None => (Ok (rec, None), session)
            | Some rec, Some nf =>
                match nested_attr tm nf obj session with
                | Some n => (Ok (rec, Some (nf_name nf, n)), session)
                | None => (InternalServerError, session)
                end
            end
        end
    end
  else (InternalServerError, session).

(** The UPDATE of a flush: the cells of the attributes that were set. *)
Definition flush_update (data : attrs) (r : attrs) : attrs :=
  foldr (λ c acc,
           match data !! cname c with
           | Some v => <[cname c := bind_cell c v]> acc
           | None => acc
           end)
        r (columns tm).

(** The primary key after the UPDATE: an integer no other row has. *)
Definition primary_key_ok (id : Z) (r' : attrs) (t : list attrs) : bool :=
  match r' !! "id" with
  | Some (VInt n) => negb (existsb (has_id n) (remove_row id t))
  | _ => false
  end.

(** The parameters of an UPDATE: the cell of every attribute that was
    set has to be bindable. *)
Definition update_bindable (data : attrs) : bool :=
  forallb (λ c, match data !! cname c with
                | Some v => bindable (bind_cell c v)
                | None => true
                end)
          (columns tm).

(** [update_*]: [session.get], 404 when there is none,
    [model_dump(exclude_unset=True)], [setattr] for each item, [add],
    [commit], [refresh], return.  The commit raises, and changes
    nothing, when a cell cannot be bound or a constraint fails. *)
Definition update_one (id : Z) (obj : attrs) (session : database)
    : response attrs * database :=
  let t := rows e session in
  if int64 id then
    match find_row id t with
    | None => (HTTPException 404 (res_detail R), session)
    | Some r =>
        match load_row tm r with
        | None => (InternalServerError, session)
        | Some _ =>
            let data := model_dump_exclude_unset obj in
            let r' := flush_update data r in
            if update_bindable data && primary_key_ok id r' t && not_null_ok tm r' then
              let session' := set_rows e (insert_row r' (remove_row id t)) session in
              match load_row tm r' with
              | Some o => (serialize (res_public R) o, session')
              | None => (InternalServerError, session')
              end
            else (InternalServerError, session)
        end
    end
  else (InternalServerError, session).

(** What the unit of work does for the relationships of a deleted
    object: the rows on the many side of a one-to-many relationship get
    their foreign key set to NULL. *)
Definition detach (id : Z) (rel : relationship) (session : database)
    : database :=
  match rel with
  | OneToMany _ child fk =>
      set_rows child
        ((λ r, if fk_is fk id r then <[fk := VNone]> r else r)
           <$> rows child session)
        session
  | ManyToOne _ _ _ => session
  end.

(** [delete_*]: [session.get], 404 when there is none, [delete],
    [commit], [{"ok": True}]. *)
Definition delete_one (id : Z) (session : database)
    : response body * database :=
  if int64 id then
    match find_row id (rows e session) with
    | None => (HTTPException 404 (res_detail R), session)
    | Some r =>
        match load_row tm r with
        | None => (InternalServerError, session)
        | Some _ =>
            let session1 := foldr (detach id) session (relationships tm) in
            (Ok ok_true,
             set_rows e (remove_row id (rows e session1)) session1)
        end
    end
  else (InternalServerError, session).

(** The routes: the framework validates the body and the query before
    it calls the handler. *)
Definition POST (b : body) (session : database) : response attrs * database :=
  match model_validate (res_create R) b with
  | Some obj => create_one obj session
  | None => (RequestValidationError, session)
  end.

(** [offset: int = 0], [limit: int = Query(default=100, le=100)]. *)
Definition GET_all (offset limit : option Z) (session : database)
    : response (list attrs) * database :=
  let limit := default 100 limit in
  if 100 <? limit then (RequestValidationError, session)
  else read_all (default 0 offset) limit session.

Definition PATCH (id : Z) (b : body) (session : database)
    : response attrs * database :=
  match model_validate (res_update R) b with
  | Some obj => update_one id obj session
  | None => (RequestValidationError, session)
  end.
End handlers.

(** The twenty handlers of src/app.py, lines 202-421. *)
Definition create_event := create_one Events.
Definition read_events := read_all Events.

Definition create_section := create_one Sections.
Definition read_sections := read_all Sections.
Definition read_section := read_one Sections.
Definition update_section := update_one Sections.
Definition delete_section := delete_one Sections.

Definition create_schedule := create_one Schedules.
Definition read_schedules := read_all Schedules.
Definition read_schedule := read_one Schedules.
Definition update_schedule := update_one Schedules.
Definition delete_schedule := delete_one Schedules.

Definition create_venue := create_one Venues.
Definition read_venues := read_all Venues.
Definition read_venue := read_one Venues.
Definition update_venue := update_one Venues.
Definition delete_venue := delete_one Venues.

(** Running a handler for its response, or for the store it leaves. *)
Definition resp {A} (x : response A * database) : response A := x.1.
Definition store {A} (x : response A * database) : database := x.2.

(** ** Requests used as examples *)

Definition venue_body_with_extra : body :=
  <["nickname" := JStr "x"]>
    (<["url" := JStr "http://hall.example/"]> {[ "name" := JStr "Hall" ]}).

Definition section_body (title sequence : string) (status : option json) : body :=
  let b : body := <["title" := JStr title]> {[ "sequence" := JStr sequence ]} in
  match status with
  | Some j => <["status" := j]> b
  | None => b
  end.


Definition event_body (section_id : option Z) : body :=
  let b : body :=
    <["start_time" := JStr "10:00:00"]>
      (<["end_time" := JStr "11:00:00"]>
         (<["event_date" := JStr "2024-02-29"]> {[ "location" := JStr "Room" ]})) in
  match section_id with
  | Some n => <["section_id" := JInt n]> b
  | None => b
  end.

Definition venue_body : body := {[ "name" := JStr "Hall" ]}.

(** The store after [POST /sections/] with a null status. *)
Definition one_section : database :=
  store (POST Sections (section_body "A" "1" (Some JNull)) create_db_and_tables).

(** ... and then [POST /events/] with ["section_id": 1]. *)
Definition section_with_event : database :=
  store (POST Events (event_body (Some 1)) one_section).

(** The store after a second [POST /sections/]. *)
Definition two_sections : database :=
  store (POST Sections (section_body "B" "2" (Some JNull)) one_section).

(** The store after [POST /venues/] with [{"name": "Hall"}]. *)
Definition venue_without_url : database :=
  store (POST Venues venue_body create_db_and_tables).

(** The store after 101 times [POST /events/]. *)
Definition many_events : database :=
  Nat.iter 101 (λ s, store (POST Events (event_body None) s)) create_db_and_tables.

(** ** More of [HttpUrlType] and of the responses *)


(** A response in the 4xx range: the 422 of the framework or an
    [HTTPException] of a handler. *)
Definition client_error {A} (r : response A) : bool :=
  match r with
  | HTTPException _ _ | RequestValidationError => true
  | Ok _ | InternalServerError => false
  end.

(** What validation makes of one field of a model, given the body. *)
Definition field_accepts (b : body) (f : field) : bool :=
  match b !! fname f with
  | Some j => bool_decide (is_Some (validate_field f j))
  | None => bool_decide (is_Some (fdefault f))
  end.

(** ** The tables as the database keeps them *)

Definition ids (t : list attrs) : list Z := omap row_id t.

(** Every row has an integer identifier, and the rows are in strictly
    increasing order of it: no two rows share an identifier. *)
Definition table_ok (t : list attrs) : Prop :=
  Forall (λ r, is_Some (row_id r)) t ∧ StronglySorted Z.lt (ids t).

Definition store_ok (db : database) : Prop := ∀ e, table_ok (rows e db).
(** * Properties *)

(** ** Looking rows up *)

Lemma has_id_row_id (id : Z) (r : attrs) :
  has_id id r = true ↔ row_id r = Some id.
Proof.
  unfold has_id. destruct (row_id r) as [n|]; [|by split].
  rewrite Z.eqb_eq. split; [by intros ->|by intros [= ->]].
Qed.


Lemma find_row_present (id : Z) (t : list attrs) (r : attrs) :
  find_row id t = Some r → r ∈ t ∧ row_id r = Some id.
Proof.
  unfold find_row. intros H. apply List.find_some in H as [Hin Hid].
  split; [by apply list_elem_of_In|by apply has_id_row_id].
Qed.

(** ** C4: identifiers that are not in the store *)




(** ** C1: fields the schema does not have *)

(** A body with a key outside a model that forbids extra fields is
    rejected by the framework; the handler does not run and the store is
    the one before the request. *)
Lemma extra_field_rejected (R : resource) (b : body) (k : string) (session : database) :
  extra (res_create R) = forbid →
  k ∈ dom b → k ∉ field_names (res_create R) →
  POST R b session = (RequestValidationError, session).
Proof.
  intros Hf Hk Hn. unfold POST, model_validate. rewrite Hf.
  assert (has_extra (res_create R) b = true) as ->; [|done].
  unfold has_extra. apply negb_true_iff, bool_decide_eq_false.
  intros Hsub. apply Hn. specialize (Hsub k Hk).
  by apply elem_of_list_to_set in Hsub.
Qed.

(** The create models of Schedule, Section and Event forbid extra fields;
    the one of Venue does not. *)
Lemma create_models_extra :
  extra ScheduleCreate = forbid ∧ extra SectionCreate = forbid
  ∧ extra EventCreate = forbid ∧ extra VenueCreate = ignore.
Proof. done. Qed.

(** C1.  [POST /venues/] with [{"name": "Hall", "url":
    "http://hall.example/", "nickname": "x"}] on the empty store: the key
    [nickname] is no field of [VenueCreate], yet the request is answered
    with the created record and a row is stored. *)
Theorem venue_create_accepts_extra_field :
  ("nickname" ∈ dom venue_body_with_extra)
  ∧ ("nickname" ∉ field_names VenueCreate)
  ∧ match POST Venues venue_body_with_extra create_db_and_tables with
    | (Ok out, session') =>
        out !! "id" = Some (VInt 1) ∧ out !! "name" = Some (VStr "Hall")
        ∧ out !! "nickname" = None
        ∧ List.length (venue_rows session') = 1%nat
    | _ => False
    end.
Proof.
  split; [|split].
  - apply (bool_decide_unpack _). by vm_compute.
  - apply (bool_decide_unpack _). by vm_compute.
  - vm_compute. done.
Qed.

(** ** C9: the status of a section *)

Lemma insert_row_elem (r : attrs) (t : list attrs) : r ∈ insert_row r t.
Proof.
  induction t as [|r' t IH]; simpl; [by left|].
  destruct (row_id r) as [n|], (row_id r') as [n'|];
    try (by right). destruct (n <? n'); [by left|by right].
Qed.

Lemma insert_row_other (r r0 : attrs) (t : list attrs) :
  r0 ∈ insert_row r t ↔ r0 = r ∨ r0 ∈ t.
Proof.
  induction t as [|r' t IH]; simpl.
  - rewrite list_elem_of_singleton. split; [by left|].
    intros [?|H]; [done|by apply elem_of_nil in H].
  - destruct (row_id r) as [n|], (row_id r') as [n'|];
      try destruct (n <? n'); rewrite !elem_of_cons, ?IH; tauto.
Qed.

(** C9.  [POST /sections/] with [{"title": "A", "sequence": "1"}], a
    payload that leaves the status out, on the empty store: the request
    is answered 422 and no section is stored. *)
Theorem section_without_status_is_rejected :
  section_body "A" "1" None !! "status" = None
  ∧ POST Sections (section_body "A" "1" None) create_db_and_tables
    = (RequestValidationError, create_db_and_tables)
  ∧ ¬ (∃ out session',
         POST Sections (section_body "A" "1" None) create_db_and_tables
         = (Ok out, session')).
Proof.
  split; [by vm_compute|]. split; [by vm_compute|].
  intros (out & session' & H). vm_compute in H. discriminate H.
Qed.

(** X9.  The status of a section may be null but it has to be given.  A create payload with ["status": null]
    succeeds, whenever the table has a rowid to give: it answers a
    record with no status and stores a row with no status under that
    rowid.  A payload without the key [status] is rejected and nothing
    is stored. *)
Theorem section_status_nullable_but_required (session : database) :
  (∀ title sequence n,
     new_rowid (random_rowids session) (section_rows session) = Some n →
     ∃ out row session',
       POST Sections (section_body title sequence (Some JNull)) session
       = (Ok out, session')
       ∧ out !! "status" = Some VNone
       ∧ out !! "title" = Some (VStr title)
       ∧ out !! "sequence" = Some (VStr sequence)
       ∧ out !! "id" = Some (VInt n)
       ∧ row ∈ section_rows session'
       ∧ row !! "status" = Some VNone
       ∧ row !! "id" = out !! "id")
  ∧ (∀ b : body,
       b !! "status" = None →
       POST Sections b session = (RequestValidationError, session)).
Proof.
  split.
  - intros title sequence n Hn.
    set (obj := (<["title" := VStr title]>
                   (<["sequence" := VStr sequence]> {[ "status" := VNone ]})) : attrs).
    set (cells := bind_row Section_ (table_validate Section_ SectionCreate obj)).
    set (row := <["id" := VInt n]> cells).
    exists (delete "schedule_id" row), row,
           (set_rows ESection (insert_row row (section_rows session)) session).
    split; [|split_and!; try apply insert_row_elem; by vm_compute].
    unfold POST.
    assert (model_validate (res_create Sections)
              (section_body title sequence (Some JNull)) = Some obj) as ->
      by (by vm_compute).
    unfold create_one.
    change (rows (res_entity Sections) session) with (section_rows session).
    change (table_of (res_entity Sections)) with Section_.
    change (res_create Sections) with SectionCreate. fold cells.
    assert (cells_bindable Sections cells = true) as -> by (by vm_compute).
    rewrite Hn. fold row.
    assert (not_null_ok Section_ row = true) as -> by (by vm_compute).
    assert (∃ o, load_row Section_ row = Some o
                 ∧ serialize (res_public Sections) o = Ok (delete "schedule_id" row))
      as (o & -> & ->); [|done].
    eexists. split; by vm_compute.
  - intros b Hb. unfold POST, model_validate. simpl.
    destruct (has_extra SectionCreate b); [done|].
    rewrite Hb. simpl.
    destruct (b !! "title") as [j|]; [|done]. simpl.
    destruct (validate_field _ j); [|done]. simpl.
    destruct (b !! "sequence") as [j'|]; [|done]. simpl.
    by destruct (validate_field _ j').
Qed.

Lemma section_status_nullable_but_required_witness :
  POST Sections (section_body "A" "1" None) create_db_and_tables
  = (RequestValidationError, create_db_and_tables).
Proof.
  apply (proj2 (section_status_nullable_but_required create_db_and_tables)).
  by vm_compute.
Defined.

(** ** C2: a record with its children *)

Lemma mapM_length_eq {A B} (f : A → option B) (l : list A) (k : list B) :
  mapM f l = Some k → List.length k = List.length l.
Proof. intros H. symmetry. by eapply length_mapM. Qed.

(** A schedule is answered with one nested section for each section row
    whose [schedule_id] is its identifier. *)
Lemma read_schedule_lists_its_sections (id : Z) (session session' : database)
    (out : attrs) (n : option (string * nested_value)) :
  read_schedule id session = (Ok (out, n), session') →
  ∃ l, n = Some ("sections", NestedList l)
       ∧ List.length l
         = List.length (List.filter (fk_is "schedule_id" id) (section_rows session)).
Proof.
  unfold read_schedule, read_one. destruct (int64 id); [|done]. simpl.
  destruct (find_row id (schedule_rows session)) as [r|] eqn:Hr; [|done].
  apply find_row_present in Hr as [_ Hid].
  destruct (load_row Schedule r) as [obj|] eqn:Hobj; [|done].
  destruct (response_validate SchedulePublic obj) as [o|]; [|done].
  assert (obj !! "id" = Some (VInt id)) as Hobjid.
  { unfold row_id in Hid. unfold load_row in Hobj. simpl in Hobj.
    unfold cell in Hobj.
    destruct (r !! "id") as [[]|]; try done. injection Hid as ->.
    repeat (match type of Hobj with
            | context [result_cell ?c ?v] => destruct (result_cell c v); [|done]
            end; simpl in Hobj).
    injection Hobj as <-. by vm_compute. }
  unfold nested_attr. simpl. rewrite Hobjid.
  destruct (mapM (load_row Section_) _) as [objs|] eqn:Hobjs; [|done]. simpl.
  destruct (mapM (response_validate SectionPublic) objs) as [l|] eqn:Hl; [|done].
  simpl. intros [= <- <- <-]. exists l. split; [done|].
  apply mapM_length_eq in Hl, Hobjs. congruence.
Qed.

(** C2.  In the store left by creating a section and then an event with
    ["section_id": 1], an event row references section 1, yet
    [GET /sections/1] answers the section with an empty list under
    [eventes]: the response model reads an attribute [eventes], and the
    relationship of [Section] is called [events]. *)
Theorem read_section_answers_no_events :
  (∃ ev, ev ∈ event_rows section_with_event ∧ ev !! "section_id" = Some (VInt 1))
  ∧ (∃ out, read_section 1 section_with_event
            = (Ok (out, Some ("eventes", NestedList [])), section_with_event))
  ∧ List.find (λ rel, String.eqb (rel_attr rel) (nf_name SectionPublicWithEventes))
              (relationships Section_) = None.
Proof.
  split; [|split].
  - eexists. split; [apply list_elem_of_here|by vm_compute].
  - eexists. by vm_compute.
  - done.
Qed.

(** ** C5: pages *)

(** A limit above 100 is rejected by the framework. *)
Lemma limit_above_100_rejected (R : resource) (offset : option Z) (limit : Z)
    (session : database) :
  100 < limit →
  GET_all R offset (Some limit) session = (RequestValidationError, session).
Proof.
  intros H. unfold GET_all. simpl.
  by destruct (Z.ltb_spec 100 limit); [|lia].
Qed.

(** With a limit that is not negative, a page that is answered holds at
    most that many records. *)
Lemma page_within_limit (R : resource) (offset limit : Z)
    (session session' : database) (l : list attrs) :
  0 ≤ limit →
  read_all R offset limit session = (Ok l, session') →
  Z.of_nat (List.length l) ≤ limit.
Proof.
  intros Hl. unfold read_all. destruct (int64 offset && int64 limit); [|done].
  destruct (mapM (load_row _) _) as [objs|] eqn:Hobjs; [|done].
  destruct (mapM (response_validate _) objs) as [l'|] eqn:Hl'; [|done].
  intros [= <- <-]. apply mapM_length_eq in Hl', Hobjs.
  rewrite Hl', Hobjs. unfold sql_limit.
  destruct (Z.ltb_spec limit 0); [lia|]. rewrite length_take. lia.
Qed.

(** C5.  [GET /events/?limit=-1] on a store of 101 events passes the
    check of the limit and answers all 101 records: more than the limit
    that was asked for, and more than 100. *)
Theorem negative_limit_is_no_limit :
  List.length (event_rows many_events) = 101%nat
  ∧ match GET_all Events None (Some (-1)) many_events with
    | (Ok l, _) => List.length l = 101%nat
    | _ => False
    end.
Proof. split; by vm_compute. Qed.

(** ** C6, C7, C3: a URL that was left out *)

(** The cell written for a URL attribute that holds [None] is the text
    ["None"], and no row with such a cell loads again. *)
Lemma url_none_does_not_round_trip :
  process_result_value (Some (process_bind_param None)) = None.
Proof. done. Qed.

(** C6.  [POST /venues/] with [{"name": "Hall"}], a valid payload, on the
    empty store: the row is stored under identifier 1 with the text
    ["None"] in its [url] cell, the request is answered 500 instead of
    the created record, and so is [GET /venues/1] afterwards. *)
Theorem create_venue_without_url_fails :
  model_validate VenueCreate venue_body = Some {[ "name" := VStr "Hall" ]}
  ∧ resp (POST Venues venue_body create_db_and_tables) = InternalServerError
  ∧ (∃ r, venue_rows venue_without_url = [r]
          ∧ r !! "id" = Some (VInt 1) ∧ r !! "url" = Some (VStr "None"))
  ∧ resp (read_venue 1 venue_without_url) = InternalServerError.
Proof.
  split; [by vm_compute|]. split; [by vm_compute|]. split; [|by vm_compute].
  eexists. split; [by vm_compute|]. by vm_compute.
Qed.

(** C7.  In that store venue 1 exists; [DELETE /venues/1] is answered 500
    and removes nothing, and [GET /venues/1] afterwards is answered 500,
    not 404. *)
Theorem delete_venue_without_url_fails :
  (∃ r, find_row 1 (venue_rows venue_without_url) = Some r)
  ∧ delete_venue 1 venue_without_url = (InternalServerError, venue_without_url)
  ∧ resp (read_venue 1 (store (delete_venue 1 venue_without_url)))
    = InternalServerError.
Proof.
  split; [eexists; by vm_compute|]. split; by vm_compute.
Qed.

(** C3.  In that store, [PATCH /venues/1] with [{"Tel": "123"}] is
    answered 500 and the [Tel] cell of venue 1 stays null, although the
    payload sets it. *)
Theorem update_venue_without_url_fails :
  model_validate VenueUpdate {[ "Tel" := JStr "123" ]} = Some {[ "Tel" := VStr "123" ]}
  ∧ PATCH Venues 1 {[ "Tel" := JStr "123" ]} venue_without_url
    = (InternalServerError, venue_without_url)
  ∧ (∃ r, find_row 1 (venue_rows venue_without_url) = Some r
          ∧ r !! "Tel" = Some VNone).
Proof.
  split; [by vm_compute|]. split; [by vm_compute|].
  eexists. split; by vm_compute.
Qed.

(** ** C8: deleting a parent *)

Lemma rows_set_rows (e : entity) (t : list attrs) (db : database) :
  rows e (set_rows e t db) = t.
Proof. by destruct e. Qed.

Lemma rows_set_rows_ne (e e' : entity) (t : list attrs) (db : database) :
  e ≠ e' → rows e' (set_rows e t db) = rows e' db.
Proof. by destruct e, e'. Qed.

Lemma detached_rows_lookup (fk : string) (id : Z) (t : list attrs) (i : nat) (r : attrs) :
  t !! i = Some r →
  ∃ r', ((λ r, if fk_is fk id r then <[fk := VNone]> r else r) <$> t) !! i = Some r'
        ∧ (∀ k, k ≠ fk → r' !! k = r !! k)
        ∧ r' !! fk = (if fk_is fk id r then Some VNone else r !! fk).
Proof.
  intros Hi. rewrite list_lookup_fmap, Hi. simpl. eexists. split; [done|].
  destruct (fk_is fk id r); [|done]. split.
  - intros k Hk. by rewrite lookup_insert_ne.
  - by rewrite lookup_insert_eq.
Qed.

(** C8, as stated, fails: in the store with section 1 and an event whose
    [section_id] is 1, [DELETE /sections/1] succeeds and the event is
    still there, but its [section_id] is null afterwards, not 1. *)
Lemma delete_section_clears_section_id :
  (∃ ev, event_rows section_with_event = [ev]
         ∧ ev !! "id" = Some (VInt 1) ∧ ev !! "section_id" = Some (VInt 1))
  ∧ resp (delete_section 1 section_with_event) = Ok ok_true
  ∧ (∃ ev', event_rows (store (delete_section 1 section_with_event)) = [ev']
            ∧ ev' !! "id" = Some (VInt 1) ∧ ev' !! "section_id" = Some VNone)
  ∧ ¬ (∃ ev', ev' ∈ event_rows (store (delete_section 1 section_with_event))
              ∧ ev' !! "section_id" = Some (VInt 1)).
Proof.
  split; [eexists; split; [by vm_compute|split; by vm_compute]|].
  split; [by vm_compute|].
  split; [eexists; split; [by vm_compute|split; by vm_compute]|].
  intros (ev' & Hin & Hfk). revert Hin Hfk.
  assert (∃ ev0, event_rows (store (delete_section 1 section_with_event)) = [ev0]
                 ∧ ev0 !! "section_id" = Some VNone) as (ev0 & -> & H0).
  { eexists. split; by vm_compute. }
  intros ->%list_elem_of_singleton. by rewrite H0.
Qed.

(** C8, amended.  Deleting a parent deletes no child: after a successful
    delete of a schedule the section table has the same rows at the same
    places, each with all its cells as before except that a
    [schedule_id] equal to the deleted identifier has become null, and
    the event table is untouched; after a successful delete of a section
    the same holds of the event table and [section_id]. *)
Theorem delete_parent_detaches_children (session : database) (id : Z) :
  (resp (delete_schedule id session) = Ok ok_true →
   event_rows (store (delete_schedule id session)) = event_rows session
   ∧ List.length (section_rows (store (delete_schedule id session)))
     = List.length (section_rows session)
   ∧ ∀ i r, section_rows session !! i = Some r →
       ∃ r', section_rows (store (delete_schedule id session)) !! i = Some r'
             ∧ (∀ k, k ≠ "schedule_id" → r' !! k = r !! k)
             ∧ r' !! "schedule_id"
               = (if fk_is "schedule_id" id r then Some VNone else r !! "schedule_id"))
  ∧ (resp (delete_section id session) = Ok ok_true →
     List.length (event_rows (store (delete_section id session)))
     = List.length (event_rows session)
     ∧ ∀ i r, event_rows session !! i = Some r →
         ∃ r', event_rows (store (delete_section id session)) !! i = Some r'
               ∧ (∀ k, k ≠ "section_id" → r' !! k = r !! k)
               ∧ r' !! "section_id"
                 = (if fk_is "section_id" id r then Some VNone else r !! "section_id")).
Proof.
  split.
  - unfold delete_schedule, delete_one. destruct (int64 id); [|done].
    destruct (find_row id _) as [r0|]; [|done].
    destruct (load_row _ r0); [|done]. simpl. intros _.
    split; [done|]. split; [by rewrite length_fmap|].
    intros i r Hi. by apply detached_rows_lookup.
  - unfold delete_section, delete_one. destruct (int64 id); [|done].
    destruct (find_row id _) as [r0|]; [|done].
    destruct (load_row _ r0); [|done]. simpl. intros _.
    split; [by rewrite length_fmap|].
    intros i r Hi. by apply detached_rows_lookup.
Qed.

Lemma delete_parent_detaches_children_witness :
  List.length (event_rows (store (delete_section 1 section_with_event)))
  = List.length (event_rows section_with_event)
  ∧ ∀ i r, event_rows section_with_event !! i = Some r →
      ∃ r', event_rows (store (delete_section 1 section_with_event)) !! i = Some r'
            ∧ (∀ k, k ≠ "section_id" → r' !! k = r !! k)
            ∧ r' !! "section_id"
              = (if fk_is "section_id" 1 r then Some VNone else r !! "section_id").
Proof.
  apply (proj2 (delete_parent_detaches_children section_with_event 1)).
  by vm_compute.
Defined.

(** ** Cells of rows, objects and responses, by name *)

(** The row written by an update: a cell whose column was set in the
    payload holds the bound value, every other cell is the one before. *)
Lemma flush_update_lookup (R : resource) (data r : attrs) (k : string) :
  flush_update R data r !! k
  = match List.find (column_named k) (columns (table_of (res_entity R))), data !! k with
    | Some c, Some v => Some (bind_cell c v)
    | _, _ => r !! k
    end.
Proof.
  unfold flush_update. induction (columns _) as [|a cs IH]; simpl; [done|].
  unfold column_named at 1. destruct (String.eqb_spec (cname a) k) as [<-|Hne].
  - destruct (data !! cname a) as [v|] eqn:Hd.
    + by rewrite lookup_insert_eq.
    + rewrite IH. by destruct (List.find _ cs).
  - destruct (data !! cname a) as [v|] eqn:Hd; [|done].
    by rewrite lookup_insert_ne.
Qed.

Lemma load_cells_lookup (cs : list column) (r o : attrs) (k : string) :
  load_cells cs r = Some o →
  o !! k = c ← List.find (column_named k) cs; result_cell c (cell r k).
Proof.
  revert o. induction cs as [|a cs IH]; simpl; intros o.
  - by intros [= <-].
  - destruct (result_cell a (cell r (cname a))) as [v|] eqn:Hv; [|done]. simpl.
    destruct (load_cells cs r) as [o'|]; [|done]. simpl. intros [= <-].
    unfold column_named at 1. destruct (String.eqb_spec (cname a) k) as [<-|Hne].
    + by rewrite lookup_insert_eq.
    + rewrite lookup_insert_ne by done. by apply IH.
Qed.

Lemma load_cells_default (cs : list column) (r : attrs) :
  Forall (λ c, ctype c = SaDefault) cs → is_Some (load_cells cs r).
Proof.
  induction 1 as [|a cs Ha _ [o Ho]]; simpl; [by eexists|].
  unfold result_cell. rewrite Ha. simpl. rewrite Ho. by eexists.
Qed.

Lemma response_fields_lookup (fs : list field) (obj out : attrs) (k : string) :
  response_fields fs obj = Some out →
  out !! k = f ← List.find (field_named k) fs; response_field f obj.
Proof.
  revert out. induction fs as [|a fs IH]; simpl; intros out.
  - by intros [= <-].
  - destruct (response_field a obj) as [v|] eqn:Hv; [|done]. simpl.
    destruct (response_fields fs obj) as [o'|]; [|done]. simpl. intros [= <-].
    unfold field_named at 1. destruct (String.eqb_spec (fname a) k) as [<-|Hne].
    + by rewrite lookup_insert_eq.
    + rewrite lookup_insert_ne by done. by apply IH.
Qed.

Lemma response_fields_is_Some (fs : list field) (obj : attrs) :
  Forall (λ f, is_Some (response_field f obj)) fs → is_Some (response_fields fs obj).
Proof.
  induction 1 as [|a fs [v Hv] _ [o Ho]]; simpl; [by eexists|].
  rewrite Hv. simpl. rewrite Ho. by eexists.
Qed.

(** A validated model sets fields of the model only. *)
Lemma validate_fields_dom (fs : list field) (b : body) (obj : attrs) (k : string) :
  validate_fields fs b = Some obj → is_Some (obj !! k) → k ∈ fname <$> fs.
Proof.
  revert obj. induction fs as [|f fs IH]; simpl; intros obj.
  - intros [= <-] [? H]. by rewrite lookup_empty in H.
  - destruct (b !! fname f) as [j|].
    + destruct (validate_field f j) as [v|]; [|done]. simpl.
      destruct (validate_fields fs b) as [rest|]; [|done]. simpl.
      intros [= <-] Hk. destruct (decide (fname f = k)) as [->|Hne]; [by left|].
      rewrite lookup_insert_ne in Hk by done. right. by eapply IH.
    + destruct (fdefault f); [|done]. intros H Hk. right. by eapply IH.
Qed.

Lemma model_validate_dom (m : model) (b : body) (obj : attrs) (k : string) :
  model_validate m b = Some obj → is_Some (obj !! k) → k ∈ field_names m.
Proof.
  unfold model_validate, field_names.
  destruct (extra m); [destruct (has_extra m b); [done|]|];
    apply validate_fields_dom.
Qed.

Lemma find_row_none (id : Z) (t : list attrs) :
  (∀ x, x ∈ t → has_id id x = false) → find_row id t = None.
Proof.
  intros H. unfold find_row. destruct (List.find _ t) as [x|] eqn:Hx; [|done].
  apply List.find_some in Hx as [Hin Hid]. apply list_elem_of_In, H in Hin. congruence.
Qed.

Lemma find_row_insert_row (id : Z) (r : attrs) (t : list attrs) :
  has_id id r = true → (∀ x, x ∈ t → has_id id x = false) →
  find_row id (insert_row r t) = Some r.
Proof.
  intros Hr. unfold find_row. induction t as [|r' t IH]; intros Ht; simpl.
  - by rewrite Hr.
  - assert (has_id id r' = false) as Hr' by (apply Ht; by left).
    assert (List.find (has_id id) (r' :: insert_row r t) = Some r) as Hrest.
    { simpl. rewrite Hr'. apply IH. intros x Hx. apply Ht. by right. }
    destruct (row_id r) as [n|], (row_id r') as [n'|]; try done.
    destruct (n <? n'); [|done]. simpl. by rewrite Hr.
Qed.

Lemma remove_row_elem (id : Z) (t : list attrs) (x : attrs) :
  x ∈ remove_row id t ↔ x ∈ t ∧ has_id id x = false.
Proof.
  unfold remove_row. rewrite list_elem_of_In, List.filter_In, <- list_elem_of_In.
  by rewrite negb_true_iff.
Qed.

(** ** C10: the identifier under update *)

Lemma store_update_one (R : resource) (id : Z) (obj : attrs) (session : database) :
  store (update_one R id obj session) = session
  ∨ ∃ r, find_row id (rows (res_entity R) session) = Some r
         ∧ store (update_one R id obj session)
           = set_rows (res_entity R)
               (insert_row (flush_update R obj r)
                           (remove_row id (rows (res_entity R) session)))
               session.
Proof.
  unfold update_one, model_dump_exclude_unset.
  destruct (int64 id); [|by left].
  destruct (find_row id _) as [r|]; [|by left].
  destruct (load_row _ r); [|by left].
  destruct (update_bindable _ _ && primary_key_ok _ _ _ && not_null_ok _ _);
    [|by left].
  right. exists r. split; [done|]. by destruct (load_row _ _).
Qed.

(** An update model without an [id] field leaves the record under its
    identifier, whatever the body and whether the request succeeds. *)
Lemma update_keeps_id (R : resource) (id : Z) (b : body) (session : database) (r : attrs) :
  "id" ∉ field_names (res_update R) →
  find_row id (rows (res_entity R) session) = Some r →
  ∃ r', find_row id (rows (res_entity R) (store (PATCH R id b session))) = Some r'
        ∧ r' !! "id" = r !! "id".
Proof.
  intros Hno Hr. unfold PATCH.
  destruct (model_validate (res_update R) b) as [obj|] eqn:Hobj; [|by exists r].
  destruct (store_update_one R id obj session) as [->|(r0 & Hr0 & ->)]; [by exists r|].
  rewrite Hr in Hr0. injection Hr0 as <-.
  assert (flush_update R obj r !! "id" = r !! "id") as Hid.
  { rewrite flush_update_lookup. destruct (obj !! "id") as [v|] eqn:Hv.
    - exfalso. apply Hno. eapply model_validate_dom; [done|by eexists].
    - by destruct (List.find _ _). }
  exists (flush_update R obj r). split; [|done].
  rewrite rows_set_rows. apply find_row_insert_row.
  - apply find_row_present in Hr as [_ Hr]. apply has_id_row_id.
    unfold row_id in *. by rewrite Hid.
  - intros x Hx. by apply remove_row_elem in Hx as [_ ?].
Qed.

Lemma bind_cell_default (c : column) (v : value) :
  ctype c = SaDefault → bind_cell c v = v.
Proof. unfold bind_cell. by intros ->. Qed.

Lemma not_null_lookup (tm : table_model) (r : attrs) (c : column) :
  not_null_ok tm r = true → c ∈ columns tm → nullable c = false →
  ∃ v, r !! cname c = Some v ∧ v ≠ VNone.
Proof.
  unfold not_null_ok. rewrite forallb_forall. intros H Hc Hn.
  apply list_elem_of_In, H in Hc. rewrite Hn in Hc. simpl in Hc.
  unfold cell in Hc. destruct (r !! cname c) as [v|]; simpl in Hc; [|done].
  exists v. split; [done|]. by intros ->.
Qed.

(** C10, as stated, fails in its last part: an [id] that is present is
    not always written.  With sections 1 and 2 in the store,
    [PATCH /sections/1] with [{"id": 2}] is answered 500 and section 1
    keeps its identifier; so does [PATCH /sections/1] with
    [{"id": 9223372036854775808}], an integer the database cannot
    hold. *)
Lemma section_id_is_not_always_written :
  model_validate SectionUpdate {[ "id" := JInt 2 ]} = Some {[ "id" := VInt 2 ]}
  ∧ PATCH Sections 1 {[ "id" := JInt 2 ]} two_sections
    = (InternalServerError, two_sections)
  ∧ PATCH Sections 1 {[ "id" := JInt (2 ^ 63) ]} two_sections
    = (InternalServerError, two_sections)
  ∧ (∃ r, find_row 1 (section_rows two_sections) = Some r
          ∧ r !! "id" = Some (VInt 1) ∧ r !! "title" = Some (VStr "A")).
Proof.
  split; [by vm_compute|]. split; [by vm_compute|]. split; [by vm_compute|].
  eexists. split; [by vm_compute|]. split; by vm_compute.
Qed.

(** C10, amended.  [VenueUpdate], [ScheduleUpdate] and [EventUpdate]
    have no [id] field, and a PATCH on these three resources leaves the
    record under the identifier it had, whatever the body.
    [SectionUpdate] accepts an [id]; when the payload sets it to an
    integer that no other section carries, every integer of the payload
    is in the signed 64-bit range and neither title nor sequence is set
    to null, the update succeeds, answers the record with the new
    identifier, and the row is stored under the new identifier and no
    longer under the old one. *)
Theorem identifier_under_update (session : database) (id : Z) :
  (∀ R (b : body) r,
     R ∈ [Venues; Schedules; Events] →
     find_row id (rows (res_entity R) session) = Some r →
     ("id" ∉ field_names (res_update R))
     ∧ ∃ r', find_row id (rows (res_entity R) (store (PATCH R id b session))) = Some r'
             ∧ r' !! "id" = r !! "id")
  ∧ (∀ n : Z, model_validate SectionUpdate {[ "id" := JInt n ]}
              = Some {[ "id" := VInt n ]})
  ∧ (∀ (n : Z) (obj r : attrs),
       int64 id = true →
       find_row id (section_rows session) = Some r →
       not_null_ok Section_ r = true →
       obj !! "id" = Some (VInt n) →
       (∀ k m, obj !! k = Some (VInt m) → int64 m = true) →
       obj !! "title" ≠ Some VNone →
       obj !! "sequence" ≠ Some VNone →
       (∀ x, x ∈ section_rows session → row_id x = Some n → n = id) →
       ∃ out r',
         resp (update_section id obj session) = Ok out
         ∧ out !! "id" = Some (VInt n)
         ∧ find_row n (section_rows (store (update_section id obj session))) = Some r'
         ∧ r' !! "id" = Some (VInt n)
         ∧ (n ≠ id →
            find_row id (section_rows (store (update_section id obj session))) = None)).
Proof.
  split; [|split].
  - intros R b r HR Hr.
    assert ("id" ∉ field_names (res_update R)) as Hno.
    { apply (bool_decide_unpack _).
      repeat (apply elem_of_cons in HR as [->|HR]; [by vm_compute|]).
      by apply elem_of_nil in HR. }
    split; [done|]. by apply update_keeps_id.
  - intros n. by vm_compute.
  - intros n obj r H64 Hr Hnn Hid Hint Ht Hs Hfresh.
    set (t := section_rows session) in *.
    set (r' := flush_update Sections obj r).
    assert (r' !! "id" = Some (VInt n)) as Hid'.
    { unfold r'. rewrite flush_update_lookup. simpl. by rewrite Hid. }
    assert (r' !! "title" ≠ None ∧ r' !! "title" ≠ Some VNone) as [Ht1 Ht2].
    { unfold r'. rewrite flush_update_lookup. simpl.
      destruct (obj !! "title") as [v|]; [rewrite bind_cell_default by done; split; congruence|].
      destruct (not_null_lookup Section_ r (mkColumn "title" SaDefault false) Hnn)
        as (v & Hv & Hvn); [set_solver|done|].
      simpl in Hv. rewrite Hv. split; congruence. }
    assert (r' !! "sequence" ≠ None ∧ r' !! "sequence" ≠ Some VNone) as [Hs1 Hs2].
    { unfold r'. rewrite flush_update_lookup. simpl.
      destruct (obj !! "sequence") as [v|]; [rewrite bind_cell_default by done; split; congruence|].
      destruct (not_null_lookup Section_ r (mkColumn "sequence" SaDefault false) Hnn)
        as (v & Hv & Hvn); [set_solver|done|].
      simpl in Hv. rewrite Hv. split; congruence. }
    assert (∀ x, x ∈ remove_row id t → has_id n x = false) as Hothers.
    { intros x [Hx Hxid]%remove_row_elem.
      destruct (has_id n x) eqn:Hxn; [|done].
      apply has_id_row_id in Hxn. pose proof (Hfresh x Hx Hxn) as ->.
      apply has_id_row_id in Hxn. congruence. }
    assert (update_bindable Sections obj = true) as Hbind.
    { unfold update_bindable. apply forallb_forall. intros c Hc.
      destruct (obj !! cname c) as [v|] eqn:Hv; [|done].
      assert (ctype c = SaDefault) as Hct.
      { simpl in Hc. destruct Hc as [<-|[<-|[<-|[<-|[<-|[]]]]]]; done. }
      rewrite bind_cell_default by done.
      destruct v; try done. simpl. by eapply Hint. }
    assert (primary_key_ok id r' t = true) as Hpk.
    { unfold primary_key_ok. rewrite Hid'. apply negb_true_iff.
      apply not_true_is_false. intros (x & Hx & Hxn)%existsb_exists.
      apply list_elem_of_In, Hothers in Hx. congruence. }
    assert (not_null_ok Section_ r' = true) as Hnn'.
    { unfold not_null_ok, cell. simpl. rewrite Hid'. simpl.
      destruct (r' !! "title") as [[]|]; try done;
        destruct (r' !! "sequence") as [[]|]; done. }
    destruct (load_cells_default (columns Section_) r) as [o0 Ho0];
      [repeat constructor|].
    destruct (load_cells_default (columns Section_) r') as [o Ho];
      [repeat constructor|].
    assert (∀ k, k ∈ ["title"; "sequence"; "status"; "id"] → o !! k = Some (cell r' k))
      as Hok.
    { intros k Hk. rewrite (load_cells_lookup _ _ _ _ Ho).
      repeat (apply elem_of_cons in Hk as [->|Hk]; [done|]).
      by apply elem_of_nil in Hk. }
    destruct (response_fields_is_Some (model_fields SectionPublic) o) as [out Hout].
    { unfold response_field. repeat constructor; simpl; rewrite Hok by set_solver;
        unfold cell.
      - destruct (r' !! "title") as [[]|]; try done; by eexists.
      - destruct (r' !! "sequence") as [[]|]; try done; by eexists.
      - destruct (r' !! "status") as [[]|]; by eexists.
      - rewrite Hid'. by eexists. }
    exists out, r'.
    assert (update_section id obj session
            = (Ok out, set_rows ESection (insert_row r' (remove_row id t)) session))
      as ->.
    { unfold update_section, update_one, model_dump_exclude_unset, load_row.
      change (rows (res_entity Sections) session) with t.
      change (table_of (res_entity Sections)) with Section_.
      rewrite H64, Hr, Ho0. fold r'. rewrite Hbind, Hpk, Hnn'. cbn [andb]. rewrite Ho.
      unfold serialize, response_validate.
      change (res_public Sections) with SectionPublic. by rewrite Hout. }
    simpl. split; [done|]. split.
    { rewrite (response_fields_lookup _ _ _ _ Hout). simpl.
      unfold response_field. simpl. rewrite Hok by set_solver.
      unfold cell. by rewrite Hid'. }
    split; [|split; [done|]].
    + apply find_row_insert_row; [|done].
      apply has_id_row_id. unfold row_id. by rewrite Hid'.
    + intros Hne. apply find_row_none. intros x [->|Hx]%insert_row_other.
      * unfold has_id, row_id. rewrite Hid'. by apply Z.eqb_neq.
      * by apply remove_row_elem in Hx as [_ ?].
Qed.

Lemma identifier_under_update_witness :
  (∃ r', find_row 1 (event_rows
                       (store (PATCH Events 1 {[ "location" := JStr "Hall" ]}
                                     section_with_event))) = Some r'
         ∧ r' !! "id" = Some (VInt 1))
  ∧ ∃ out r',
      resp (update_section 1 {[ "id" := VInt 7 ]} one_section) = Ok out
      ∧ out !! "id" = Some (VInt 7)
      ∧ find_row 7 (section_rows
                      (store (update_section 1 {[ "id" := VInt 7 ]} one_section)))
        = Some r'
      ∧ r' !! "id" = Some (VInt 7)
      ∧ (7 ≠ 1 →
         find_row 1 (section_rows
                       (store (update_section 1 {[ "id" := VInt 7 ]} one_section)))
         = None).
Proof.
  split.
  - destruct (proj1 (identifier_under_update section_with_event 1) Events
                {[ "location" := JStr "Hall" ]}
                (default ∅ (find_row 1 (event_rows section_with_event))))
      as [_ (r' & Hr' & Hid)].
    + set_solver.
    + by vm_compute.
    + exists r'. split; [done|]. rewrite Hid. by vm_compute.
  - apply (proj2 (proj2 (identifier_under_update one_section 1)) 7
             {[ "id" := VInt 7 ]}
             (default ∅ (find_row 1 (section_rows one_section)))).
    + by vm_compute.
    + by vm_compute.
    + by vm_compute.
    + by vm_compute.
    + intros k m Hk. destruct (decide (k = "id")) as [->|Hne].
      * rewrite lookup_singleton_eq in Hk. by injection Hk as <-.
      * by rewrite lookup_singleton_ne in Hk.
    + by vm_compute.
    + by vm_compute.
    + intros x Hx Hn. exfalso.
      assert (row_id x = Some 1) as H1; [|congruence].
      revert Hx. generalize x. apply Forall_forall.
      apply (bool_decide_unpack _). by vm_compute.
Defined.

(** * Further properties of the code *)

(** ** Validation of request bodies *)

Lemma validate_fields_accepts (fs : list field) (b : body) :
  is_Some (validate_fields fs b) ↔ Forall (λ f, field_accepts b f = true) fs.
Proof.
  induction fs as [|f fs IH]; simpl.
  - split; [constructor|by eexists].
  - rewrite Forall_cons, <- IH. unfold field_accepts.
    destruct (b !! fname f) as [j|]; rewrite bool_decide_eq_true;
      [destruct (validate_field f j) as [v|]|destruct (fdefault f)];
      destruct (validate_fields fs b); simpl;
      (split; [intros H|intros [H1 H2]]);
      try (by apply is_Some_None in H);
      try (by apply is_Some_None in H1);
      try (by apply is_Some_None in H2);
      eauto.
Qed.

(** X1.  A body is accepted by a model exactly when every field of the
    model is satisfied (a key that is present validates, a key that is
    absent has a default) and, when the model forbids extra fields, every
    key of the body names a field. *)
Theorem model_validate_accepts (m : model) (b : body) :
  is_Some (model_validate m b)
  ↔ Forall (λ f, field_accepts b f = true) (model_fields m)
    ∧ (extra m = forbid → ∀ k, k ∈ dom b → k ∈ field_names m).
Proof.
  unfold model_validate, has_extra. destruct (extra m).
  - destruct (bool_decide (dom b ⊆ list_to_set (field_names m))) eqn:Hd; simpl.
    + apply bool_decide_eq_true in Hd. rewrite validate_fields_accepts.
      split; [|by intros [? _]]. intros H. split; [done|].
      intros _ k Hk. by apply Hd, elem_of_list_to_set in Hk.
    + apply bool_decide_eq_false in Hd. split; [by intros [? ?]|].
      intros [_ H]. exfalso. apply Hd. intros k Hk.
      apply elem_of_list_to_set. by apply H.
  - rewrite validate_fields_accepts. split; [by intros ?; split|by intros [? _]].
Qed.

Lemma model_validate_accepts_witness :
  is_Some (model_validate SectionCreate (section_body "A" "1" (Some JNull)))
  ∧ ¬ is_Some (model_validate SectionCreate (section_body "A" "1" None)).
Proof.
  split.
  - apply (proj2 (model_validate_accepts SectionCreate
                    (section_body "A" "1" (Some JNull)))).
    split.
    + apply (bool_decide_unpack _). by vm_compute.
    + intros _. apply (bool_decide_unpack _). by vm_compute.
  - intros H.
    apply (proj1 (model_validate_accepts SectionCreate (section_body "A" "1" None)))
      in H as [H _].
    revert H. apply (bool_decide_unpack _). by vm_compute.
Defined.




Lemma validate_fields_ext (fs : list field) (b b' : body) :
  (∀ f, f ∈ fs → b !! fname f = b' !! fname f) →
  validate_fields fs b = validate_fields fs b'.
Proof.
  induction fs as [|f fs IH]; simpl; [done|]. intros H.
  rewrite <- (H f) by (by left). rewrite IH; [done|].
  intros f' Hf'. apply H. by right.
Qed.

(** X3.  [VenueCreate], [VenueUpdate], [SectionUpdate] and [EventUpdate]
    carry pydantic's default configuration: a key that names no field of
    the model is dropped, and the request goes on as if the key had not
    been sent. *)
Theorem unknown_key_is_ignored (R : resource) (b : body) (k : string) (j : json)
    (id : Z) (session : database) :
  (R = Venues → k ∉ field_names VenueCreate →
   POST R (<[k := j]> b) session = POST R (delete k b) session)
  ∧ (R ∈ [Venues; Sections; Events] → k ∉ field_names (res_update R) →
     PATCH R id (<[k := j]> b) session = PATCH R id (delete k b) session).
Proof.
  assert (∀ m, extra m = ignore → k ∉ field_names m →
               model_validate m (<[k := j]> b) = model_validate m (delete k b)) as Hm.
  { intros m Hi Hk. unfold model_validate. rewrite Hi.
    apply validate_fields_ext. intros f Hf.
    assert (fname f ≠ k) as Hne.
    { intros <-. apply Hk. unfold field_names. by apply list_elem_of_fmap_2. }
    by rewrite lookup_insert_ne, lookup_delete_ne. }
  split.
  - intros -> Hk. unfold POST. by rewrite Hm.
  - intros HR Hk. unfold PATCH. rewrite Hm; [done| |done].
    repeat (apply elem_of_cons in HR as [->|HR]; [done|]).
    by apply elem_of_nil in HR.
Qed.

Lemma unknown_key_is_ignored_witness :
  POST Venues (<["nickname" := JStr "x"]> venue_body) create_db_and_tables
  = POST Venues (delete "nickname" venue_body) create_db_and_tables.
Proof.
  apply (proj1 (unknown_key_is_ignored Venues venue_body "nickname" (JStr "x") 0
                  create_db_and_tables)); [done|].
  apply (bool_decide_unpack _). by vm_compute.
Defined.

Lemma model_validate_forbid (m : model) (b : body) (k : string) :
  extra m = forbid → k ∈ dom b → k ∉ field_names m → model_validate m b = None.
Proof.
  intros Hf Hk Hn.
  destruct (model_validate m b) as [obj|] eqn:H; [|done]. exfalso.
  apply Hn. by apply (proj1 (model_validate_accepts m b) (mk_is_Some _ _ H)).
Qed.

(** X4.  [ScheduleBase], [SectionBase] and [EventBase] forbid extra
    fields: a create body with a key outside the model is answered 422
    and the store is left as it was; so is a PATCH body for a schedule,
    whose update model inherits the configuration, and this even when the
    identifier does not exist. *)
Theorem unknown_key_is_rejected (R : resource) (b : body) (k : string)
    (id : Z) (session : database) :
  k ∈ dom b →
  (R ∈ [Schedules; Sections; Events] → k ∉ field_names (res_create R) →
   POST R b session = (RequestValidationError, session))
  ∧ (k ∉ field_names ScheduleUpdate →
     PATCH Schedules id b session = (RequestValidationError, session)).
Proof.
  intros Hk. split.
  - intros HR Hn. unfold POST. rewrite (model_validate_forbid _ b k); [done| |done..].
    repeat (apply elem_of_cons in HR as [->|HR]; [done|]).
    by apply elem_of_nil in HR.
  - intros Hn. unfold PATCH. by rewrite (model_validate_forbid _ b k).
Qed.

Lemma unknown_key_is_rejected_witness :
  PATCH Schedules 9 {[ "id" := JInt 3 ]} create_db_and_tables
  = (RequestValidationError, create_db_and_tables).
Proof.
  assert ("id" ∈ dom ({[ "id" := JInt 3 ]} : body)) as Hk.
  { apply (bool_decide_unpack _). by vm_compute. }
  apply (proj2 (unknown_key_is_rejected Schedules {[ "id" := JInt 3 ]} "id" 9
                  create_db_and_tables Hk)).
  apply (bool_decide_unpack _). by vm_compute.
Defined.

(** ** What a request can do to the store *)

(** X5.  A GET changes nothing.  A POST or PATCH that is answered 422 or
    404, and a DELETE that is answered anything but its acknowledgement,
    leave the store as it was.  The only [HTTPException] a handler raises
    is the 404 of its resource; a create raises none. *)
Theorem requests_and_the_store (R : resource) (session : database) :
  (∀ id, store (read_one R id session) = session)
  ∧ (∀ offset limit, store (GET_all R offset limit session) = session)
  ∧ (∀ b, client_error (resp (POST R b session)) = true →
          POST R b session = (RequestValidationError, session))
  ∧ (∀ id b, client_error (resp (PATCH R id b session)) = true →
             store (PATCH R id b session) = session)
  ∧ (∀ id, resp (delete_one R id session) = Ok ok_true
           ∨ store (delete_one R id session) = session)
  ∧ (∀ id b c d,
       resp (read_one R id session) = HTTPException c d
       ∨ resp (PATCH R id b session) = HTTPException c d
       ∨ resp (delete_one R id session) = HTTPException c d →
       c = 404 ∧ d = res_detail R).
Proof.
  split_and!.
  - intros id. unfold read_one. by repeat case_match.
  - intros offset limit. unfold GET_all, read_all. by repeat case_match.
  - intros b. unfold POST, create_one, serialize. by repeat case_match.
  - intros id b. unfold PATCH, update_one, serialize. by repeat case_match.
  - intros id. unfold delete_one. repeat case_match; by (left + right).
  - intros id b c d.
    unfold PATCH, read_one, update_one, delete_one, serialize.
    intros [Hx|[Hx|Hx]]; revert Hx; repeat case_match; simpl; intros Hx;
      by simplify_eq.
Qed.

Lemma requests_and_the_store_witness :
  POST Sections (section_body "A" "1" None) create_db_and_tables
  = (RequestValidationError, create_db_and_tables).
Proof.
  apply (proj1 (proj2 (proj2 (requests_and_the_store Sections create_db_and_tables)))).
  by vm_compute.
Defined.

(** ** The URL columns *)






(** ** Identifiers *)

Arguments ids : simpl never.

Lemma ids_cons (r : attrs) (n : Z) (t : list attrs) :
  row_id r = Some n → ids (r :: t) = n :: ids t.
Proof. unfold ids. simpl. by intros ->. Qed.

Lemma table_ok_cons (r : attrs) (t : list attrs) :
  table_ok (r :: t) ↔
  ∃ n, row_id r = Some n ∧ Forall (Z.lt n) (ids t) ∧ table_ok t.
Proof.
  unfold table_ok. rewrite Forall_cons. split.
  - intros [[[n Hn] Ht] Hs]. rewrite (ids_cons _ n) in Hs by done.
    apply StronglySorted_cons in Hs as [? ?]. by exists n.
  - intros (n & Hn & Hlt & Ht & Hs). rewrite (ids_cons _ n) by done.
    split; [split; [by eexists|done]|]. by apply StronglySorted_cons.
Qed.

Lemma table_ok_nil : table_ok [].
Proof. split; constructor. Qed.

Lemma insert_row_ok (r : attrs) (n : Z) (t : list attrs) :
  row_id r = Some n → table_ok t → n ∉ ids t →
  table_ok (insert_row r t) ∧ ∀ m, m ∈ ids (insert_row r t) ↔ m = n ∨ m ∈ ids t.
Proof.
  intros Hr. induction t as [|r' t IH]; intros Ht Hn.
  - simpl. split.
    + apply table_ok_cons. exists n. split_and!; [done|constructor|apply table_ok_nil].
    + intros m. rewrite (ids_cons _ n) by done. by rewrite elem_of_cons.
  - apply table_ok_cons in Ht as (n' & Hr' & Hlt & Ht).
    rewrite (ids_cons _ n') in Hn by done.
    apply not_elem_of_cons in Hn as [Hne Hn]. simpl. rewrite Hr, Hr'.
    destruct (Z.ltb_spec n n') as [Hlt'|Hge].
    + split.
      * apply table_ok_cons. exists n. split_and!; [done| |].
        -- rewrite (ids_cons _ n') by done. constructor; [done|].
           eapply Forall_impl; [done|]. simpl. lia.
        -- apply table_ok_cons. by exists n'.
      * intros m. rewrite (ids_cons _ n) by done. by rewrite elem_of_cons.
    + destruct (IH Ht Hn) as [Hok Hmem]. split.
      * apply table_ok_cons. exists n'. split_and!; [done| |done].
        apply Forall_forall. intros m [->|Hm]%Hmem; [lia|].
        by eapply Forall_forall in Hlt.
      * intros m. rewrite !(ids_cons _ n') by done.
        rewrite !elem_of_cons, Hmem. tauto.
Qed.

Lemma remove_row_cons (id : Z) (r : attrs) (t : list attrs) :
  remove_row id (r :: t)
  = if has_id id r then remove_row id t else r :: remove_row id t.
Proof. unfold remove_row. simpl. by destruct (has_id id r). Qed.

Lemma remove_row_ok (id : Z) (t : list attrs) :
  table_ok t →
  table_ok (remove_row id t) ∧ ∀ m, m ∈ ids (remove_row id t) ↔ m ∈ ids t ∧ m ≠ id.
Proof.
  induction t as [|r t IH]; intros Ht.
  - split; [done|]. intros m. unfold ids. simpl. rewrite elem_of_nil. tauto.
  - apply table_ok_cons in Ht as (n & Hr & Hlt & Ht).
    destruct (IH Ht) as [Hok Hmem]. rewrite remove_row_cons.
    destruct (has_id id r) eqn:Hh.
    + apply has_id_row_id in Hh. assert (n = id) as Heq by congruence.
      split; [done|]. intros m. rewrite (ids_cons _ n), elem_of_cons, Hmem by done.
      split; [tauto|]. intros [[->|?] ?]; [congruence|tauto].
    + assert (n ≠ id) as Hne.
      { intros ->. apply has_id_row_id in Hr. congruence. }
      split.
      * apply table_ok_cons. exists n. split_and!; [done| |done].
        apply Forall_forall. intros m [Hm _]%Hmem. by eapply Forall_forall in Hlt.
      * intros m. rewrite !(ids_cons _ n) by done.
        rewrite !elem_of_cons, Hmem. split; [|tauto].
        intros [->|[? ?]]; tauto.
Qed.

Lemma foldr_max_ge (i : Z) (l : list Z) (n : Z) :
  n ∈ i :: l → n ≤ foldr Z.max i l.
Proof.
  induction l as [|a l IH]; simpl.
  - intros ->%list_elem_of_singleton. lia.
  - rewrite !elem_of_cons. intros [->|[->|Hn]]; [|lia|].
    + assert (i ≤ foldr Z.max i l) by (apply IH; by left). lia.
    + assert (n ≤ foldr Z.max i l) by (apply IH; by right). lia.
Qed.

(** The identifier given to a new row is larger than every identifier in
    the table. *)
Lemma next_rowid_above (t : list attrs) (n : Z) :
  n ∈ ids t → n < next_rowid t.
Proof.
  unfold next_rowid, ids. destruct (omap row_id t) as [|i l].
  - by intros ?%elem_of_nil.
  - intros Hn%foldr_max_ge. lia.
Qed.

Lemma store_ok_set_rows (e : entity) (t : list attrs) (db : database) :
  store_ok db → table_ok t → store_ok (set_rows e t db).
Proof.
  intros Hdb Ht e'. pose proof (Hdb e') as He'.
  destruct e, e'; simpl in *; done.
Qed.

Lemma ids_cons_eq (r : attrs) (t : list attrs) :
  ids (r :: t) = match row_id r with Some n => n :: ids t | None => ids t end.
Proof. done. Qed.

Lemma ids_fmap (f : attrs → attrs) (t : list attrs) :
  (∀ r, row_id (f r) = row_id r) → ids (f <$> t) = ids t.
Proof.
  intros Hf. induction t as [|r t IH]; [done|].
  by rewrite fmap_cons, !ids_cons_eq, Hf, IH.
Qed.

Lemma table_ok_fmap (f : attrs → attrs) (t : list attrs) :
  (∀ r, row_id (f r) = row_id r) → table_ok t → table_ok (f <$> t).
Proof.
  intros Hf. induction t as [|r t IH]; [done|].
  rewrite fmap_cons, !table_ok_cons. intros (n & Hr & Hlt & Ht).
  exists n. rewrite Hf, ids_fmap by done. split_and!; [done..|by apply IH].
Qed.

Lemma detach_ok (e : entity) (id : Z) (db : database) :
  store_ok db → store_ok (foldr (detach id) db (relationships (table_of e))).
Proof.
  assert (∀ fk db' child, fk ≠ "id" → store_ok db' →
            store_ok (detach id (OneToMany fk child fk) db')) as H.
  { intros fk db' child Hfk Hdb. simpl. apply store_ok_set_rows; [done|].
    apply table_ok_fmap; [|apply Hdb].
    intros r. unfold row_id. destruct (fk_is fk id r); [|done].
    by rewrite lookup_insert_ne. }
  intros Hdb. destruct e; simpl; try done.
  - apply (H "schedule_id" db ESection); done.
  - apply (H "section_id" db EEvent); done.
Qed.

Lemma store_update_one_pk (R : resource) (id : Z) (obj : attrs) (session : database) :
  store (update_one R id obj session) = session
  ∨ ∃ r n, flush_update R obj r !! "id" = Some (VInt n)
           ∧ (∀ x, x ∈ remove_row id (rows (res_entity R) session) →
                   has_id n x = false)
           ∧ store (update_one R id obj session)
             = set_rows (res_entity R)
                 (insert_row (flush_update R obj r)
                             (remove_row id (rows (res_entity R) session)))
                 session.
Proof.
  unfold update_one, model_dump_exclude_unset.
  destruct (int64 id); [|by left].
  destruct (find_row id _) as [r|]; [|by left].
  destruct (load_row _ r); [|by left].
  destruct (update_bindable _ _); [|by left].
  destruct (primary_key_ok _ _ _) eqn:Hpk; [|by left].
  destruct (not_null_ok _ _); [|by left]. simpl.
  right. unfold primary_key_ok in Hpk.
  destruct (flush_update R obj r !! "id") as [[]|] eqn:Hid; try done.
  exists r, n. split; [done|]. split.
  - intros x Hx. apply negb_true_iff in Hpk.
    destruct (has_id n x) eqn:Hxn; [|done].
    assert (existsb (has_id n) (remove_row id (rows (res_entity R) session)) = true)
      as Hex; [|congruence].
    apply existsb_exists. exists x. split; [by apply list_elem_of_In|done].
  - by destruct (load_row _ _).
Qed.

Lemma not_in_ids (n : Z) (t : list attrs) :
  (∀ x, x ∈ t → has_id n x = false) → n ∉ ids t.
Proof.
  intros H Hn. unfold ids in Hn. apply list_elem_of_omap in Hn as (x & Hx & Hid).
  apply has_id_row_id in Hid. apply H in Hx. congruence.
Qed.

(** The rowid given to a new row is carried by no row of the table. *)
Lemma new_rowid_fresh (random : list Z) (t : list attrs) (n : Z) :
  new_rowid random t = Some n → n ∉ ids t.
Proof.
  unfold new_rowid. destruct (next_rowid t <=? max_rowid).
  - intros [= <-] Hin%next_rowid_above. lia.
  - intros [_ Hn]%List.find_some. apply not_in_ids. intros x Hx.
    unfold unused_rowid in Hn. apply andb_prop in Hn as [_ Hn].
    apply negb_true_iff in Hn. destruct (has_id n x) eqn:Hxn; [|done].
    assert (existsb (has_id n) t = true) as Hex; [|congruence].
    apply existsb_exists. exists x. split; [by apply list_elem_of_In|done].
Qed.

(** X7.  Every table holding rows with integer identifiers in strictly
    increasing order, hence no identifier twice, is an invariant of the
    store: each of the requests that write, whatever its arguments and
    whatever it answers, leaves a store of that kind when it found one. *)
Theorem identifiers_stay_unique (R : resource) (session : database) :
  store_ok session →
  (∀ b, store_ok (store (POST R b session)))
  ∧ (∀ id b, store_ok (store (PATCH R id b session)))
  ∧ (∀ id, store_ok (store (delete_one R id session))).
Proof.
  intros Hok. split_and!.
  - intros b. unfold POST. destruct (model_validate _ b) as [obj|]; [|done].
    unfold create_one.
    destruct (cells_bindable _ _); [|done].
    destruct (new_rowid _ _) as [n|] eqn:Hn; [|done].
    set (row := <["id" := VInt n]> _).
    destruct (not_null_ok _ row); [|done].
    assert (store_ok (set_rows (res_entity R)
                        (insert_row row (rows (res_entity R) session)) session)).
    { apply store_ok_set_rows; [done|].
      apply (insert_row_ok row n).
      - unfold row_id, row. by rewrite lookup_insert_eq.
      - apply Hok.
      - by eapply new_rowid_fresh. }
    by destruct (load_row _ row).
  - intros id b. unfold PATCH. destruct (model_validate _ b) as [obj|]; [|done].
    destruct (store_update_one_pk R id obj session)
      as [->|(r & n & Hn & Hfresh & ->)]; [done|].
    apply store_ok_set_rows; [done|].
    apply (insert_row_ok _ n).
    + unfold row_id. by rewrite Hn.
    + by apply remove_row_ok.
    + by apply not_in_ids.
  - intros id. unfold delete_one. destruct (int64 id); [|done].
    destruct (find_row id _) as [r|]; [|done].
    destruct (load_row _ r); [|done]. simpl.
    pose proof (detach_ok (res_entity R) id session Hok) as Hok1.
    apply store_ok_set_rows; [done|]. by apply remove_row_ok.
Qed.

Lemma identifiers_stay_unique_witness :
  store_ok (store (POST Sections (section_body "A" "1" (Some JNull))
                        create_db_and_tables)).
Proof.
  apply (proj1 (identifiers_stay_unique Sections create_db_and_tables
                  (λ e, match e with
                        | ESchedule | ESection | EEvent | EVenue => table_ok_nil
                        end))).
Defined.

(** ** Pages *)






(** ** Deleting *)

Lemma find_row_remove_row_ne (id id' : Z) (t : list attrs) :
  id' ≠ id → find_row id' (remove_row id t) = find_row id' t.
Proof.
  intros Hne. unfold find_row. induction t as [|r t IH]; [done|].
  rewrite remove_row_cons. simpl. destruct (has_id id r) eqn:Hr.
  - rewrite IH. destruct (has_id id' r) eqn:Hr'; [|done].
    apply has_id_row_id in Hr, Hr'. congruence.
  - simpl. by rewrite IH.
Qed.

Lemma rows_after_detach (R : resource) (id : Z) (session : database) :
  R ∈ [Events; Sections; Schedules; Venues] →
  rows (res_entity R)
       (foldr (detach id) session (relationships (table_of (res_entity R))))
  = rows (res_entity R) session.
Proof.
  intros HR. repeat (apply elem_of_cons in HR as [->|HR]; [done|]).
  by apply elem_of_nil in HR.
Qed.

(** X10.  After a delete that was acknowledged, a get-by-id of the same
    identifier is answered 404, and every other identifier of the table
    finds the row it found before.  For events and sections, whose
    tables have no URL column, the delete of an identifier that is in
    the table is always acknowledged. *)
Theorem delete_then_read (R : resource) (session : database) (id : Z) :
  R ∈ [Events; Sections; Schedules; Venues] →
  (resp (delete_one R id session) = Ok ok_true →
   read_one R id (store (delete_one R id session))
   = (HTTPException 404 (res_detail R), store (delete_one R id session))
   ∧ ∀ id', id' ≠ id →
       find_row id' (rows (res_entity R) (store (delete_one R id session)))
       = find_row id' (rows (res_entity R) session))
  ∧ (R ∈ [Events; Sections] → int64 id = true →
     is_Some (find_row id (rows (res_entity R) session)) →
     resp (delete_one R id session) = Ok ok_true).
Proof.
  intros HR. split.
  - unfold delete_one. destruct (int64 id) eqn:H64; [|done].
    destruct (find_row id _) as [r|]; [|done].
    destruct (load_row _ r); [|done]. simpl. intros _.
    rewrite rows_after_detach by done. split.
    + unfold read_one. rewrite H64, rows_set_rows.
      rewrite find_row_none; [done|].
      intros x Hx. by apply remove_row_elem in Hx as [_ ?].
    + intros id' Hne. rewrite rows_set_rows. by apply find_row_remove_row_ne.
  - intros HR' H64 [r Hr]. unfold delete_one. rewrite H64, Hr.
    destruct (load_cells_default (columns (table_of (res_entity R))) r) as [o Ho].
    { repeat (apply elem_of_cons in HR' as [->|HR']; [repeat constructor|]).
      by apply elem_of_nil in HR'. }
    unfold load_row. by rewrite Ho.
Qed.

Lemma delete_then_read_witness :
  read_one Sections 1 (store (delete_one Sections 1 section_with_event))
  = (HTTPException 404 "Section not found",
     store (delete_one Sections 1 section_with_event)).
Proof.
  destruct (delete_then_read Sections section_with_event 1) as [H _];
    [set_solver|].
  apply H. by vm_compute.
Defined.

(** ** Creating a section and reading it back *)

Lemma not_in_ids_has_id (n : Z) (t : list attrs) (x : attrs) :
  n ∉ ids t → x ∈ t → has_id n x = false.
Proof.
  intros Hn Hx. destruct (has_id n x) eqn:Hxn; [|done].
  exfalso. apply Hn. apply list_elem_of_omap. exists x.
  split; [done|]. by apply has_id_row_id.
Qed.

(** X11.  A section that was created can be read back: for a payload
    with a title, a sequence and a status that is a text or null, and a
    table that has a rowid to give, [POST /sections/] answers a record
    with exactly these three values and that rowid as its identifier,
    and a [GET /sections/{id}] of that identifier on the store it leaves
    answers the same record (together with the empty [eventes]). *)
Theorem section_create_then_read (session : database) (title sequence : string)
    (status : json) (n : Z) :
  status = JNull ∨ (∃ c, status = JStr c) →
  new_rowid (random_rowids session) (section_rows session) = Some n →
  int64 n = true →
  ∃ out v,
    resp (POST Sections (section_body title sequence (Some status)) session) = Ok out
    ∧ validate_field (mkField "status" TStr true None) status = Some v
    ∧ out = <["title" := VStr title]>
              (<["sequence" := VStr sequence]>
                 (<["status" := v]> {[ "id" := VInt n ]}))
    ∧ read_section n
        (store (POST Sections (section_body title sequence (Some status)) session))
      = (Ok (out, Some ("eventes", NestedList [])),
         store (POST Sections (section_body title sequence (Some status)) session)).
Proof.
  intros Hstatus Hn H64.
  assert (∃ v, validate_field (mkField "status" TStr true None) status = Some v
               ∧ (v = VNone ∨ ∃ c, v = VStr c)) as (v & Hv & Hvs).
  { destruct Hstatus as [->|[c ->]]; eexists; (split; [done|]); eauto. }
  set (out := (<["title" := VStr title]>
                 (<["sequence" := VStr sequence]>
                    (<["status" := v]> {[ "id" := VInt n ]}))) : attrs).
  set (obj := (<["title" := VStr title]>
                 (<["sequence" := VStr sequence]> {[ "status" := v ]})) : attrs).
  set (cells := bind_row Section_ (table_validate Section_ SectionCreate obj)).
  set (row := <["id" := VInt n]> cells).
  assert (POST Sections (section_body title sequence (Some status)) session
          = (Ok out, set_rows ESection (insert_row row (section_rows session)) session))
    as Hpost.
  { unfold POST.
    assert (model_validate (res_create Sections)
              (section_body title sequence (Some status)) = Some obj) as ->.
    { destruct Hstatus as [->|[c ->]]; injection Hv as <-; by vm_compute. }
    unfold create_one.
    change (rows (res_entity Sections) session) with (section_rows session).
    change (table_of (res_entity Sections)) with Section_.
    change (res_create Sections) with SectionCreate. fold cells.
    assert (cells_bindable Sections cells = true) as ->.
    { destruct Hvs as [->|[c ->]]; by vm_compute. }
    rewrite Hn. fold row.
    assert (not_null_ok Section_ row = true) as ->.
    { destruct Hvs as [->|[c ->]]; by vm_compute. }
    assert (∃ o, load_row Section_ row = Some o
                 ∧ serialize (res_public Sections) o = Ok out)
      as (o & -> & ->); [|done].
    destruct Hvs as [->|[c ->]]; eexists; split; by vm_compute. }
  exists out, v. rewrite Hpost. simpl. split_and!; [done..|].
  unfold read_section, read_one. rewrite H64.
  change (rows (res_entity Sections) _)
    with (insert_row row (section_rows session)).
  rewrite (find_row_insert_row n row).
  - change (table_of (res_entity Sections)) with Section_.
    assert (∃ o, load_row Section_ row = Some o
                 ∧ response_validate (res_public Sections) o = Some out
                 ∧ ∀ db, nested_attr Section_ SectionPublicWithEventes o db
                         = Some (NestedList []))
      as (o & -> & -> & Hnested).
    { destruct Hvs as [->|[c ->]]; eexists; split_and!; try by vm_compute.
      all: intros db; done. }
    change (res_nested Sections) with (Some SectionPublicWithEventes).
    cbv beta iota. by rewrite Hnested.
  - apply has_id_row_id. unfold row_id, row. by rewrite lookup_insert_eq.
  - intros x Hx. eapply not_in_ids_has_id; [|done]. by eapply new_rowid_fresh.
Qed.

Lemma section_create_then_read_witness :
  ∃ out v,
    resp (POST Sections (section_body "A" "1" (Some (JStr "open")))
               create_db_and_tables) = Ok out
    ∧ validate_field (mkField "status" TStr true None) (JStr "open") = Some v
    ∧ out = <["title" := VStr "A"]>
              (<["sequence" := VStr "1"]>
                 (<["status" := v]> {[ "id" := VInt 1 ]}))
    ∧ read_section 1
        (store (POST Sections (section_body "A" "1" (Some (JStr "open")))
                     create_db_and_tables))
      = (Ok (out, Some ("eventes", NestedList [])),
         store (POST Sections (section_body "A" "1" (Some (JStr "open")))
                      create_db_and_tables)).
Proof.
  apply (section_create_then_read create_db_and_tables "A" "1" (JStr "open") 1).
  - right. by eexists.
  - by vm_compute.
  - by vm_compute.
Defined.
